(** * MediLocal: text de-identification and GDPR helpers

    A shallow embedding of
    [backend/app/services/anonymization_service.py] (class
    [AnonymizationService]) and [backend/app/utils/gdpr_compliance.py]
    (class [GDPRCompliance]), together with the part of Python's [re],
    [str] and [datetime] behaviour those two classes rely on.

    Python strings are sequences of code points, dictionaries are
    association lists in insertion order (the order in which Python
    iterates them), and a call that can raise returns a [result]. *)

From Stdlib Require Import Ascii String.
From Stdlib Require Import List NArith ZArith Bool Arith Lia.
Import ListNotations.

Set Implicit Arguments.

(* ================================================================== *)
(** * Python strings *)

(** A [str] is a sequence of Unicode code points. *)
Definition pystr := list N.

(** Source literals are written as UTF-8 text and decoded into code
    points, so that ["ü"] is the single code point 252. *)
Fixpoint utf8_decode (bs : list N) : pystr :=
  match bs with
  | [] => []
  | b0 :: t =>
      if (b0 <? 128)%N then b0 :: utf8_decode t
      else if (b0 <? 224)%N then
        match t with
        | b1 :: t1 => ((b0 - 192) * 64 + (b1 - 128))%N :: utf8_decode t1
        | _ => []
        end
      else if (b0 <? 240)%N then
        match t with
        | b1 :: b2 :: t2 =>
            ((b0 - 224) * 4096 + (b1 - 128) * 64 + (b2 - 128))%N :: utf8_decode t2
        | _ => []
        end
      else
        match t with
        | b1 :: b2 :: b3 :: t3 =>
            ((b0 - 240) * 262144 + (b1 - 128) * 4096 + (b2 - 128) * 64 + (b3 - 128))%N
              :: utf8_decode t3
        | _ => []
        end
  end.

Definition u (s : string) : pystr :=
  utf8_decode (map N_of_ascii (list_ascii_of_string s)).

(** The code point of a one-character literal. *)
Definition ch (s : string) : N := hd 0%N (u s).

Definition pystr_eq_dec : forall a b : pystr, {a = b} + {a <> b} :=
  list_eq_dec N.eq_dec.

Definition pystr_eqb (a b : pystr) : bool :=
  if pystr_eq_dec a b then true else false.

(** [s[i:j]] for [0 <= i <= j]. *)
Definition slice (s : pystr) (i j : nat) : pystr := firstn (j - i) (skipn i s).

Fixpoint starts_with (p s : pystr) : bool :=
  match p, s with
  | [], _ => true
  | a :: p', b :: s' => (a =? b)%N && starts_with p' s'
  | _ :: _, [] => false
  end.

(** [sub in s]. *)
Fixpoint contains (s sub : pystr) : bool :=
  starts_with sub s ||
  match s with
  | [] => false
  | _ :: s' => contains s' sub
  end.

(** [s.replace(old, new, 1)]: only the first (leftmost) occurrence of
    [old] is replaced; an empty [old] occurs at offset 0. *)
Fixpoint replace_first (s old new : pystr) : pystr :=
  if starts_with old s then new ++ skipn (length old) s
  else match s with
       | [] => []
       | c :: s' => c :: replace_first s' old new
       end.

(** [str(n)] for a non-negative integer. *)
Definition digit_of (d : nat) : N := (48 + N.of_nat d)%N.

Fixpoint digits_fuel (fuel n : nat) (acc : pystr) : pystr :=
  match fuel with
  | O => acc
  | S fuel' =>
      let acc' := digit_of (n mod 10) :: acc in
      match n / 10 with
      | O => acc'
      | q => digits_fuel fuel' q acc'
      end
  end.

Definition str_of_nat (n : nat) : pystr := digits_fuel (S n) n [].

(** Dictionaries keyed by strings, in insertion order. *)
Definition dict (V : Type) := list (pystr * V).

Fixpoint dict_get {V : Type} (d : dict V) (k : pystr) : option V :=
  match d with
  | [] => None
  | (k', v) :: d' => if pystr_eqb k' k then Some v else dict_get d' k
  end.

Definition dict_keys {V : Type} (d : dict V) : list pystr := map fst d.

(** [d.get(k, default)]. *)
Definition dict_get_default {V : Type} (d : dict V) (k : pystr) (default : V) : V :=
  match dict_get d k with Some v => v | None => default end.

(* ================================================================== *)
(** * The [re] module, as far as the pattern catalog uses it *)

(** The Unicode character database that [re] consults: simple lower
    casing, the extra case equivalences of [re._casefix], whether a code
    point is cased, and the classes behind [\d], [\s] and [\w]. *)
Record ucd : Type := {
  tolower : N -> N;
  casefix : N -> list N;
  iscased : N -> bool;
  isdecimal : N -> bool;
  isspace : N -> bool;
  isalnum : N -> bool
}.

Definition between (lo hi c : N) : bool := ((lo <=? c) && (c <=? hi))%N.

(** The database restricted to U+0000..U+00FF, where it is exact; it
    treats every other code point as caseless punctuation. *)
Definition latin1_tolower (c : N) : N :=
  if between 65 90 c || between 192 214 c || between 216 222 c
  then (c + 32)%N else c.

Definition latin1_casefix (c : N) : list N :=
  if (c =? 105)%N then [305%N]
  else if (c =? 115)%N then [383%N]
  else if (c =? 181)%N then [956%N]
  else if (c =? 305)%N then [105%N]
  else if (c =? 383)%N then [115%N]
  else [].

Definition latin1_iscased (c : N) : bool :=
  between 65 90 c || between 97 122 c || (c =? 181)%N ||
  between 192 214 c || between 216 246 c || between 248 255 c.

Definition latin1_isdecimal (c : N) : bool := between 48 57 c.

Definition latin1_isspace (c : N) : bool :=
  between 9 13 c || between 28 32 c || (c =? 133)%N || (c =? 160)%N.

Definition latin1_isalnum (c : N) : bool :=
  between 48 57 c || between 65 90 c || between 97 122 c ||
  (c =? 170)%N || between 178 179 c || (c =? 181)%N || between 185 186 c ||
  between 188 190 c || between 192 214 c || between 216 246 c ||
  between 248 255 c.

Definition latin1 : ucd := {|
  tolower := latin1_tolower;
  casefix := latin1_casefix;
  iscased := latin1_iscased;
  isdecimal := latin1_isdecimal;
  isspace := latin1_isspace;
  isalnum := latin1_isalnum
|}.

(** Members of a bracketed class. *)
Inductive item : Type :=
| Lit (c : N)
| Range (lo hi : N)
| CatDigit
| CatSpace.

Definition charset := list item.

(** The pattern constructs that occur in the catalog.  A literal
    character is a one-item class; repetition is only ever applied to a
    single class, except for the optional group of the hyphenated-name
    rule. *)
Inductive regex : Type :=
| Eps
| OneOf (cs : charset)
| Rep (lo : nat) (hi : option nat) (cs : charset)
| Opt (r : regex)
| Cat (r1 r2 : regex)
| Alt (r1 r2 : regex)
| WordB.

Definition range_codes (lo hi : N) : list N :=
  map N.of_nat (seq (N.to_nat lo) (S (N.to_nat hi) - N.to_nat lo)).

Definition item_codes (it : item) : list N :=
  match it with
  | Lit c => [c]
  | Range lo hi => range_codes lo hi
  | CatDigit | CatSpace => []
  end.

Section Engine.

Variable U : ucd.

Definition in_category (it : item) (c : N) : bool :=
  match it with
  | CatDigit => isdecimal U c
  | CatSpace => isspace U c
  | Lit _ | Range _ _ => false
  end.

Definition in_item (it : item) (c : N) : bool :=
  match it with
  | Lit x => (c =? x)%N
  | Range lo hi => between lo hi c
  | CatDigit | CatSpace => in_category it c
  end.

(** Under IGNORECASE the compiler lowers every literal and range
    member of a class and adds their extra equivalents. *)
Definition charmap_ignore (cs : charset) : list N :=
  flat_map (fun c => tolower U c :: casefix U (tolower U c))
           (flat_map item_codes cs).

Definition hascased (cs : charset) : bool :=
  existsb (iscased U) (flat_map item_codes cs).

(** Class membership.  With IGNORECASE and a class that has a cased
    member, the subject character is lowered and looked up in the
    lowered class; otherwise it is looked up as it is. *)
Definition in_charset (ignorecase : bool) (cs : charset) (c : N) : bool :=
  if ignorecase && hascased cs then
    let c' := tolower U c in
    existsb (N.eqb c') (charmap_ignore cs) ||
    existsb (fun it => in_category it c') cs
  else existsb (fun it => in_item it c) cs.

Definition is_word (c : N) : bool := isalnum U c || (c =? 95)%N.

Definition word_at (text : pystr) (i : nat) : bool :=
  match nth_error text i with
  | Some c => is_word c
  | None => false
  end.

(** [\b]: exactly one of the two neighbouring positions holds a word
    character; outside the text counts as a non-word. *)
Definition at_boundary (text : pystr) (i : nat) : bool :=
  xorb (match i with O => false | S j => word_at text j end) (word_at text i).

(** Number of leading characters accepted by [p], at most [cap]. *)
Fixpoint run_length (p : N -> bool) (s : pystr) (cap : nat) : nat :=
  match cap, s with
  | S cap', c :: s' => if p c then S (run_length p s' cap') else O
  | _, _ => O
  end.

(** [match_at r text i] lists the end offsets of all the ways [r] can
    match at offset [i], in the order in which the backtracking
    matcher tries them: greedy repetition longest first, alternatives
    left to right. *)
Fixpoint match_at (ignorecase : bool) (r : regex) (text : pystr) (i : nat)
  : list nat :=
  match r with
  | Eps => [i]
  | OneOf cs =>
      match nth_error text i with
      | Some c => if in_charset ignorecase cs c then [S i] else []
      | None => []
      end
  | Rep lo hi cs =>
      let cap := match hi with Some h => h | None => length text end in
      let k := run_length (in_charset ignorecase cs) (skipn i text) cap in
      if k <? lo then [] else map (fun j => i + j) (rev (seq lo (S k - lo)))
  | Opt r1 => match_at ignorecase r1 text i ++ [i]
  | Cat r1 r2 =>
      flat_map (match_at ignorecase r2 text) (match_at ignorecase r1 text i)
  | Alt r1 r2 => match_at ignorecase r1 text i ++ match_at ignorecase r2 text i
  | WordB => if at_boundary text i then [i] else []
  end.

(** The match the engine reports at start offset [s]: the first way
    to match, or, right after an empty match at [s], the first way
    that is not empty. *)
Definition first_end (ignorecase : bool) (r : regex) (text : pystr)
           (s : nat) (must_advance : bool) : option nat :=
  hd_error (filter (fun e => negb (must_advance && (e =? s)))
                   (match_at ignorecase r text s)).

(** The scan of [finditer]: candidate start offsets are visited left
    to right, offsets before the end of the previous match are
    skipped, and after an empty match the same offset is retried for a
    non-empty one (the behaviour of Python 3.7 and later; no rule of
    the catalog can match the empty string). *)
Fixpoint scan (ignorecase : bool) (r : regex) (text : pystr)
         (starts : list nat) (pos : nat) : list (nat * nat) :=
  match starts with
  | [] => []
  | s :: rest =>
      if s <? pos then scan ignorecase r text rest pos
      else
        match first_end ignorecase r text s false with
        | None => scan ignorecase r text rest pos
        | Some e =>
            if e =? s then
              (s, s) ::
              match first_end ignorecase r text s true with
              | None => scan ignorecase r text rest pos
              | Some e' => (s, e') :: scan ignorecase r text rest e'
              end
            else (s, e) :: scan ignorecase r text rest e
        end
  end.

(** [re.finditer(pattern, text, flags)], as the list of spans. *)
Definition finditer (r : regex) (text : pystr) (ignorecase : bool)
  : list (nat * nat) :=
  scan ignorecase r text (seq 0 (S (length text))) 0.

(** [match.group()]. *)
Definition group (text : pystr) (span : nat * nat) : pystr :=
  slice text (fst span) (snd span).

(** [re.findall(pattern, text, flags)] for a pattern without capture
    groups. *)
Definition findall (r : regex) (text : pystr) (ignorecase : bool)
  : list pystr :=
  map (group text) (finditer r text ignorecase).

End Engine.

(** ** Pattern notation *)

Definition lit (s : string) : regex := OneOf [Lit (ch s)].

(** A literal word, one character after the other. *)
Definition word (s : string) : regex :=
  fold_right (fun c r => Cat (OneOf [Lit c]) r) Eps (u s).

Definition seqs (rs : list regex) : regex := fold_right Cat Eps rs.

Definition alts (r : regex) (rs : list regex) : regex := fold_left Alt rs r.

Definition plus (cs : charset) : regex := Rep 1 None cs.
Definition maybe (cs : charset) : regex := Rep 0 (Some 1) cs.
Definition times (lo hi : nat) (cs : charset) : regex := Rep lo (Some hi) cs.
Definition exactly (n : nat) (cs : charset) : regex := Rep n (Some n) cs.
Definition at_least (n : nat) (cs : charset) : regex := Rep n None cs.

Definition rng (a b : string) : item := Range (ch a) (ch b).
Definition chr (a : string) : item := Lit (ch a).

Definition digit : charset := [CatDigit].
Definition space : charset := [CatSpace].

(** [[A-ZÄÖÜ]], [[a-zäöüß]] and [[a-zäöüß\s]]. *)
Definition cap : charset := [rng "A" "Z"; chr "Ä"; chr "Ö"; chr "Ü"].
Definition low : charset := [rng "a" "z"; chr "ä"; chr "ö"; chr "ü"; chr "ß"].
Definition low_sp : charset := low ++ [CatSpace].

(* ================================================================== *)
(** * AnonymizationService *)

Module AnonymizationService.

(** The rules of [self.patterns], German medical anonymization
    patterns, each under the text of its pattern. *)

(** First Last names: [\b[A-ZÄÖÜ][a-zäöüß]+\s+[A-ZÄÖÜ][a-zäöüß]+\b] *)
Definition names_first_last : regex :=
  seqs [WordB; OneOf cap; plus low; plus space; OneOf cap; plus low; WordB].

(** Titles with names: [\b(?:Herr|Frau|Dr\.|Prof\.)\s+[A-ZÄÖÜ][a-zäöüß]+] *)
Definition names_titled : regex :=
  seqs [WordB;
        alts (word "Herr") [word "Frau"; Cat (word "Dr") (lit "."); Cat (word "Prof") (lit ".")];
        plus space; OneOf cap; plus low].

(** Hyphenated names: [\b[A-ZÄÖÜ][a-zäöüß]+(?:-[A-ZÄÖÜ][a-zäöüß]+)?\b] *)
Definition names_hyphenated : regex :=
  seqs [WordB; OneOf cap; plus low; Opt (seqs [lit "-"; OneOf cap; plus low]); WordB].

(** [\b\d{1,5}\s+[A-ZÄÖÜ][a-zäöüß\s]+(?:straße|str\.|platz|weg|allee|gasse)\b] *)
Definition addresses_street : regex :=
  seqs [WordB; times 1 5 digit; plus space; OneOf cap; plus low_sp;
        alts (word "straße")
             [Cat (word "str") (lit "."); word "platz"; word "weg"; word "allee"; word "gasse"];
        WordB].

(** Postal codes with cities: [\b\d{5}\s+[A-ZÄÖÜ][a-zäöüß\s]+\b] *)
Definition addresses_postal : regex :=
  seqs [WordB; exactly 5 digit; plus space; OneOf cap; plus low_sp; WordB].

(** [\b(?:\+49|0)\s?\d{2,5}[\s\-]?\d{3,8}\b] *)
Definition phones_prefixed : regex :=
  seqs [WordB; Alt (Cat (lit "+") (word "49")) (lit "0"); maybe space;
        times 2 5 digit; maybe [CatSpace; chr "-"]; times 3 8 digit; WordB].

(** [\b\d{3,5}[\s\-]\d{6,8}\b] *)
Definition phones_grouped : regex :=
  seqs [WordB; times 3 5 digit; OneOf [CatSpace; chr "-"]; times 6 8 digit; WordB].

(** [\b[A-Za-z0-9._%+-]+@[A-Za-z0-9.-]+\.[A-Z|a-z]{2,}\b] *)
Definition emails_address : regex :=
  seqs [WordB;
        plus [rng "A" "Z"; rng "a" "z"; rng "0" "9"; chr "."; chr "_"; chr "%"; chr "+"; chr "-"];
        lit "@";
        plus [rng "A" "Z"; rng "a" "z"; rng "0" "9"; chr "."; chr "-"];
        lit ".";
        at_least 2 [rng "A" "Z"; chr "|"; rng "a" "z"];
        WordB].

(** Personalausweis: [\b\d{2}\s?\d{2}\s?\d{2}\s?\d{2}\s?[A-Z]\s?\d{3}\b] *)
Definition ids_personalausweis : regex :=
  seqs [WordB; exactly 2 digit; maybe space; exactly 2 digit; maybe space;
        exactly 2 digit; maybe space; exactly 2 digit; maybe space;
        OneOf [rng "A" "Z"]; maybe space; exactly 3 digit; WordB].

(** Reisepass: [\b[A-Z]\d{8}\b] *)
Definition ids_reisepass : regex :=
  seqs [WordB; OneOf [rng "A" "Z"]; exactly 8 digit; WordB].

(** [\b\d{1,2}\.\d{1,2}\.\d{4}\b] *)
Definition dates_numeric : regex :=
  seqs [WordB; times 1 2 digit; lit "."; times 1 2 digit; lit "."; exactly 4 digit; WordB].

(** [\b\d{1,2}\s(?:Januar|Februar|März|April|Mai|Juni|Juli|August|September|Oktober|November|Dezember)\s\d{4}\b] *)
Definition dates_month_name : regex :=
  seqs [WordB; times 1 2 digit; OneOf space;
        alts (word "Januar")
             [word "Februar"; word "März"; word "April"; word "Mai"; word "Juni";
              word "Juli"; word "August"; word "September"; word "Oktober";
              word "November"; word "Dezember"];
        OneOf space; exactly 4 digit; WordB].

(** Krankenversicherungsnummer: [\b[A-Z]\d{9}\b] *)
Definition insurance_number : regex :=
  seqs [WordB; OneOf [rng "A" "Z"]; exactly 9 digit; WordB].

(** [\b\d{2}\s?\d{6}\s?[A-Z]\s?\d{3}\b] *)
Definition insurance_grouped : regex :=
  seqs [WordB; exactly 2 digit; maybe space; exactly 6 digit; maybe space;
        OneOf [rng "A" "Z"]; maybe space; exactly 3 digit; WordB].

(** [self.patterns], by pattern type, in the order of the dictionary
    literal. *)
Definition patterns : dict (list regex) :=
  [ (u "names", [names_first_last; names_titled; names_hyphenated]);
    (u "addresses", [addresses_street; addresses_postal]);
    (u "phones", [phones_prefixed; phones_grouped]);
    (u "emails", [emails_address]);
    (u "ids", [ids_personalausweis; ids_reisepass]);
    (u "dates", [dates_numeric; dates_month_name]);
    (u "insurance", [insurance_number; insurance_grouped]) ].

(** [re.IGNORECASE], the flag every call site passes. *)
Definition IGNORECASE : bool := true.

(** One entry of the [replacements] list. *)
Record replacement_entry : Type := {
  original : pystr;
  replacement : pystr;
  type : pystr;
  position : nat * nat
}.

(** The dictionary returned by [_anonymize_locally]. *)
Record anonymization_result : Type := {
  original_text : pystr;
  anonymized_text : pystr;
  replacements : list replacement_entry;
  replacement_count : nat;
  gdpr_compliant : bool;
  anonymization_method : pystr
}.

(** [_generate_replacement]: a dictionary of the seven placeholders for
    this index, with a default for any other pattern type. *)
Definition _generate_replacement (pattern_type : pystr) (index : nat) : pystr :=
  let tag (name : string) : pystr := u "[" ++ u name ++ u "_" ++ str_of_nat index ++ u "]" in
  let replacements : dict pystr :=
    [ (u "names", tag "NAME"%string);
      (u "addresses", tag "ADRESSE"%string);
      (u "phones", tag "TELEFON"%string);
      (u "emails", tag "EMAIL"%string);
      (u "ids", tag "ID"%string);
      (u "dates", tag "DATUM"%string);
      (u "insurance", tag "VERSICHERUNG"%string) ] in
  dict_get_default replacements pattern_type (tag "ANONYMIZED"%string).

Section Redactor.

Variable U : ucd.

(** The loop state: the working text and the ledger so far. *)
Definition redaction_state : Type := (pystr * list replacement_entry)%type.

(** Body of [for match in matches].  [scanned] is the string that
    [finditer] was called on; the working text has moved on since. *)
Definition on_match (pattern_type : pystr) (scanned : pystr)
           (st : redaction_state) (span : nat * nat) : redaction_state :=
  let '(anonymized, replacements) := st in
  let original := group scanned span in
  let replacement := _generate_replacement pattern_type (length replacements + 1) in
  (replace_first anonymized original replacement,
   replacements ++ [ {| original := original;
                        replacement := replacement;
                        type := pattern_type;
                        position := span |} ]).

(** Body of [for pattern in patterns]: the iterator is created once, on
    the working text as it is when this pattern is reached. *)
Definition on_pattern (pattern_type : pystr) (st : redaction_state)
           (pattern : regex) : redaction_state :=
  let matches := finditer U pattern (fst st) IGNORECASE in
  fold_left (on_match pattern_type (fst st)) matches st.

(** Body of [for pattern_type, patterns in self.patterns.items()]. *)
Definition on_pattern_type (st : redaction_state)
           (kv : pystr * list regex) : redaction_state :=
  fold_left (on_pattern (fst kv)) (snd kv) st.

Definition _anonymize_locally (text : pystr) : anonymization_result :=
  let '(anonymized, replacements) := fold_left on_pattern_type patterns (text, []) in
  {| original_text := text;
     anonymized_text := anonymized;
     replacements := replacements;
     replacement_count := length replacements;
     gdpr_compliant := true;
     anonymization_method := u "local_regex_processing" |}.

(** The dictionary returned by [AnonymizationService.validate_anonymization]. *)
Record validation_result : Type := {
  is_valid : bool;
  potential_issues : list pystr;
  anonymization_score : Z
}.

(** The three patterns the validator re-checks; their text is that of
    the first names rule, the second addresses rule and the emails
    rule. *)
Definition suspicious_patterns : list regex :=
  [names_first_last; addresses_postal; emails_address].

(** Body of [for pattern in suspicious_patterns]. *)
Definition collect_issues (anonymized : pystr) (issues : list pystr)
           (pattern : regex) : list pystr :=
  let matches := findall U pattern anonymized IGNORECASE in
  match matches with
  | [] => issues
  | _ :: _ => issues ++ matches
  end.

Definition validate_anonymization (original anonymized : pystr) : validation_result :=
  let issues := fold_left (collect_issues anonymized) suspicious_patterns [] in
  {| is_valid := length issues =? 0;
     potential_issues := issues;
     anonymization_score := Z.max 0 (100 - Z.of_nat (length issues) * 10) |}.

End Redactor.

End AnonymizationService.

(* ================================================================== *)
(** * Exceptions, [datetime], [str.encode] *)

Inductive exception : Type :=
| OverflowError
| UnicodeEncodeError.

Inductive result (A : Type) : Type :=
| Ok (a : A)
| Raise (e : exception).

Arguments Ok {A} a.
Arguments Raise {A} e.

Definition bind {A B : Type} (m : result A) (k : A -> result B) : result B :=
  match m with
  | Ok a => k a
  | Raise e => Raise e
  end.

Notation "x <- m ;; k" := (bind m (fun x => k))
  (at level 61, m at next level, right associativity).

(** A naive [datetime]: the proleptic Gregorian day number (1 is
    0001-01-01) and the time of day. *)
Record datetime : Type := {
  toordinal : Z;
  hour : Z;
  minute : Z;
  second : Z;
  microsecond : Z
}.

(** [datetime.max.toordinal()], the day number of 9999-12-31. *)
Definition MAXORDINAL : Z := 3652059.

Definition valid_datetime (d : datetime) : Prop :=
  (1 <= toordinal d <= MAXORDINAL /\ 0 <= hour d < 24 /\ 0 <= minute d < 60 /\
   0 <= second d < 60 /\ 0 <= microsecond d < 1000000)%Z.

(** [d + timedelta(days=n)]: the time of day is kept; a day number
    outside [1 .. MAXORDINAL] raises OverflowError. *)
Definition add_days (d : datetime) (n : Z) : result datetime :=
  let day := (toordinal d + n)%Z in
  if ((0 <? day) && (day <=? MAXORDINAL))%Z then
    Ok {| toordinal := day; hour := hour d; minute := minute d;
          second := second d; microsecond := microsecond d |}
  else Raise OverflowError.

Definition is_leap (y : Z) : bool :=
  ((y mod 4 =? 0) && (negb (y mod 100 =? 0) || (y mod 400 =? 0)))%Z.

Definition days_in_month (leap : bool) (m : Z) : Z :=
  (if m =? 2 then (if leap then 29 else 28)
   else if (m =? 4) || (m =? 6) || (m =? 9) || (m =? 11) then 30
   else 31)%Z.

(** Days of the year before the first day of month [m]. *)
Definition days_before_month (leap : bool) (m : Z) : Z :=
  fold_left (fun acc k => (acc + days_in_month leap (Z.of_nat k))%Z)
            (seq 1 (Z.to_nat m - 1)) 0%Z.

(** Day number to (year, month, day), by the 400/100/4/1-year cycles. *)
Definition ord2ymd (ordinal : Z) : Z * Z * Z :=
  (let n := ordinal - 1 in
   let n400 := n / 146097 in
   let n := n mod 146097 in
   let n100 := n / 36524 in
   let n := n mod 36524 in
   let n4 := n / 1461 in
   let n := n mod 1461 in
   let n1 := n / 365 in
   let n := n mod 365 in
   let year := n400 * 400 + 1 + n100 * 100 + n4 * 4 + n1 in
   if (n1 =? 4) || (n100 =? 4) then (year - 1, 12, 31)
   else
     let leap := (n1 =? 3) && (negb (n4 =? 24) || (n100 =? 3)) in
     let month := (n + 50) / 32 in
     let preceding := days_before_month leap month in
     if preceding >? n
     then (year, month - 1, n - (preceding - days_in_month leap (month - 1)) + 1)
     else (year, month, n - preceding + 1))%Z.

(** ["%0<width>d" % n] for a non-negative [n]. *)
Definition zero_padded (width : nat) (n : Z) : pystr :=
  let ds := str_of_nat (Z.to_nat n) in
  repeat 48%N (width - length ds) ++ ds.

(** [d.isoformat()]. *)
Definition isoformat (d : datetime) : pystr :=
  let '(y, m, dd) := ord2ymd (toordinal d) in
  zero_padded 4 y ++ u "-" ++ zero_padded 2 m ++ u "-" ++ zero_padded 2 dd ++
  u "T" ++ zero_padded 2 (hour d) ++ u ":" ++ zero_padded 2 (minute d) ++
  u ":" ++ zero_padded 2 (second d) ++
  (if (microsecond d =? 0)%Z then [] else u "." ++ zero_padded 6 (microsecond d)).

(** UTF-8 bytes of one code point; surrogates cannot be encoded. *)
Definition utf8_encode_char (c : N) : option (list N) :=
  (if c <? 128 then Some [c]
   else if c <? 2048 then Some [192 + c / 64; 128 + c mod 64]
   else if c <? 65536 then
     if (55296 <=? c) && (c <=? 57343) then None
     else Some [224 + c / 4096; 128 + (c / 64) mod 64; 128 + c mod 64]
   else if c <? 1114112 then
     Some [240 + c / 262144; 128 + (c / 4096) mod 64; 128 + (c / 64) mod 64; 128 + c mod 64]
   else None)%N.

(** [s.encode()]. *)
Fixpoint encode (s : pystr) : result (list N) :=
  match s with
  | [] => Ok []
  | c :: s' =>
      match utf8_encode_char c with
      | None => Raise UnicodeEncodeError
      | Some bs => rest <- encode s' ;; Ok (bs ++ rest)
      end
  end.

(* ================================================================== *)
(** * GDPRCompliance *)

Module GDPRCompliance.

(** Data retention periods (in days). *)
Definition RETENTION_PERIODS : dict Z :=
  [ (u "medical_records", 2555%Z);
    (u "audit_logs", 2190%Z);
    (u "ai_interactions", 1095%Z);
    (u "consent_records", 2555%Z);
    (u "anonymized_data", 3650%Z) ].

(** Sensitive data patterns for detection.  Each pattern text also
    occurs in [AnonymizationService.patterns]. *)
Definition SENSITIVE_PATTERNS : dict regex :=
  [ (u "german_names", AnonymizationService.names_first_last);
    (u "addresses", AnonymizationService.addresses_street);
    (u "phone_numbers", AnonymizationService.phones_prefixed);
    (u "email_addresses", AnonymizationService.emails_address);
    (u "german_ids", AnonymizationService.ids_personalausweis);
    (u "insurance_numbers", AnonymizationService.insurance_number);
    (u "dates", AnonymizationService.dates_numeric) ].

Definition IGNORECASE : bool := true.

Record issue : Type := {
  issue_type : pystr;
  matches : list pystr;
  severity : pystr
}.

Record validation_report : Type := {
  is_anonymized : bool;
  confidence_score : Z;
  issues : list issue;
  validation_timestamp : pystr
}.

Definition severity_of (pattern_name : pystr) : pystr :=
  if existsb (pystr_eqb pattern_name)
             [u "german_names"; u "addresses"; u "phone_numbers"]
  then u "high" else u "medium".

(** Valid data-subject requests and their articles. *)
Definition valid_requests : dict pystr :=
  [ (u "access", u "Article 15 - Right of access");
    (u "rectification", u "Article 16 - Right to rectification");
    (u "erasure", u "Article 17 - Right to erasure");
    (u "restrict_processing", u "Article 18 - Right to restriction of processing");
    (u "data_portability", u "Article 20 - Right to data portability");
    (u "object", u "Article 21 - Right to object");
    (u "withdraw_consent", u "Article 7(3) - Right to withdraw consent") ].

(** The two shapes of dictionary [validate_data_subject_rights] returns. *)
Record rights_rejection : Type := {
  rejected_valid : bool;
  error : pystr;
  valid_types : list pystr
}.

Record rights_acceptance : Type := {
  valid : bool;
  request_type : pystr;
  legal_basis : pystr;
  patient_id : pystr;
  request_id : pystr;
  response_deadline : pystr;
  timestamp : pystr
}.

Inductive rights_report : Type :=
| Rejected (r : rights_rejection)
| Accepted (r : rights_acceptance).

Section Helpers.

Variable U : ucd.

(** [hashlib.sha256(data).hexdigest()]. *)
Variable sha256_hexdigest : list N -> pystr.

(** Body of [for pattern_name, pattern in cls.SENSITIVE_PATTERNS.items()]. *)
Definition check_pattern (text : pystr) (st : list issue * Z)
           (kv : pystr * regex) : list issue * Z :=
  let '(issues, confidence_score) := st in
  let '(pattern_name, pattern) := kv in
  let matches := findall U pattern text IGNORECASE in
  match matches with
  | [] => (issues, confidence_score)
  | _ :: _ =>
      (issues ++ [ {| issue_type := pattern_name;
                      matches := matches;
                      severity := severity_of pattern_name |} ],
       (confidence_score - Z.of_nat (length matches) * 15)%Z)
  end.

(** [utcnow] is the reading of the clock at the end of the call. *)
Definition validate_anonymization (utcnow : datetime) (text : pystr) : validation_report :=
  let '(issues, confidence_score) :=
    fold_left (check_pattern text) SENSITIVE_PATTERNS ([], 100%Z) in
  {| is_anonymized := length issues =? 0;
     confidence_score := Z.max 0 confidence_score;
     issues := issues;
     validation_timestamp := isoformat utcnow |}.

(** [utcnow] is read only when no creation date is given. *)
Definition calculate_retention_date (utcnow : datetime) (data_type : pystr)
           (created_date : option datetime) : result datetime :=
  let created_date :=
    match created_date with
    | None => utcnow
    | Some d => d
    end in
  let retention_days := dict_get_default RETENTION_PERIODS data_type 2555%Z in
  add_days created_date retention_days.

(** [clock k] is the k-th reading of [datetime.utcnow()] in this call.
    The membership test and the later subscript [valid_requests[request_type]]
    are one lookup here. *)
Definition validate_data_subject_rights (clock : nat -> datetime)
           (request_type patient_id : pystr) : result rights_report :=
  match dict_get valid_requests request_type with
  | None =>
      Ok (Rejected {| rejected_valid := false;
                      error := u "Invalid request type: " ++ request_type;
                      valid_types := dict_keys valid_requests |})
  | Some legal_basis =>
      data <- encode (request_type ++ u "-" ++ patient_id ++ u "-" ++ isoformat (clock 0)) ;;
      deadline <- add_days (clock 1) 30 ;;
      Ok (Accepted {| valid := true;
                      request_type := request_type;
                      legal_basis := legal_basis;
                      patient_id := patient_id;
                      request_id := firstn 16 (sha256_hexdigest data);
                      response_deadline := isoformat deadline;
                      timestamp := isoformat (clock 2) |})
  end.

End Helpers.

End GDPRCompliance.

(* ================================================================== *)
(** * AnonymizationService: hashing and the n8n route *)

Module AnonymizationRoutes.

(** What [anonymize_text] hands back: the JSON body the n8n webhook
    answered with, or the dictionary of the local redactor. *)
Inductive anonymization_outcome (J : Type) : Type :=
| FromN8n (body : J)
| Locally (r : AnonymizationService.anonymization_result).

Arguments FromN8n {J} body.
Arguments Locally {J} r.

(** How an awaited call ends: with a value, or with a raised
    exception. *)
Inductive awaited (E A : Type) : Type :=
| Returned (a : A)
| Raised (e : E).

Arguments Returned {E A} a.
Arguments Raised {E A} e.

(** What [_anonymize_via_n8n] can raise: whatever the awaited client
    calls raise (entering the client, the POST, leaving the client),
    the [Exception] of line 69 for a status code other than 200, or the
    [ValueError] of [response.json()] on a body that is not JSON. *)
Inductive n8n_error (E : Type) : Type :=
| RequestError (e : E)
| StatusError (status_code : Z)
| BodyError.

Arguments RequestError {E} e.
Arguments StatusError {E} status_code.
Arguments BodyError {E}.

Section Routes.

Variable U : ucd.

(** [hashlib.sha256(data).hexdigest()]. *)
Variable sha256_hexdigest : list N -> pystr.

(** The JSON value type; the exceptions the awaited client calls can
    raise, with [isinstance(e, Exception)]: true of connection errors
    and timeouts, false of [asyncio.CancelledError],
    [KeyboardInterrupt] and [SystemExit], which derive from
    [BaseException] only. *)
Variable J : Type.
Variable E : Type.
Variable is_Exception : E -> bool.

(** The POST to [{n8n_url}/webhook/anonymize-document] with the text as
    payload: an exception, or the status code and the body, which is
    [None] when it is not JSON and [response.json()] would raise. *)
Variable post : pystr -> awaited E (Z * option J).

(** [create_anonymization_hash]. *)
Definition create_anonymization_hash (text : pystr) : result pystr :=
  data <- encode text ;;
  Ok (sha256_hexdigest data).

(** [_anonymize_via_n8n]. *)
Definition _anonymize_via_n8n (text : pystr) : awaited (n8n_error E) J :=
  match post text with
  | Raised e => Raised (RequestError e)
  | Returned (status_code, body) =>
      if (status_code =? 200)%Z then
        match body with
        | Some json => Returned json
        | None => Raised BodyError
        end
      else Raised (StatusError status_code)
  end.

(** [isinstance(e, Exception)] for what [_anonymize_via_n8n] raises. *)
Definition caught (e : n8n_error E) : bool :=
  match e with
  | RequestError e' => is_Exception e'
  | StatusError _ | BodyError => true
  end.

(** [anonymize_text]: [except Exception] turns a failure of the n8n
    route into the local processing when the exception is an instance
    of [Exception]; any other exception passes through. *)
Definition anonymize_text (text : pystr) (use_n8n : bool)
  : awaited (n8n_error E) (anonymization_outcome J) :=
  if use_n8n then
    match _anonymize_via_n8n text with
    | Returned body => Returned (FromN8n body)
    | Raised e =>
        if caught e then Returned (Locally (AnonymizationService._anonymize_locally U text))
        else Raised e
    end
  else Returned (Locally (AnonymizationService._anonymize_locally U text)).

End Routes.

End AnonymizationRoutes.

(* ================================================================== *)
(** * GDPRCompliance: consent, processing records, impact assessment *)

Module GDPRRecords.

Module Consent.

(** The dictionary returned by [generate_consent_record]. *)
Record record : Type := {
  patient_id : pystr;
  consent_type : pystr;
  consent_given : bool;
  purpose : pystr;
  legal_basis : pystr;
  timestamp : pystr;
  consent_id : pystr;
  withdrawal_method : pystr;
  data_controller : pystr;
  retention_period : Z
}.

End Consent.

Module Processing.

(** The dictionary returned by [create_data_processing_record]. *)
Record record : Type := {
  record_id : pystr;
  activity : pystr;
  patient_id : pystr;
  data_types : list pystr;
  purpose : pystr;
  legal_basis : pystr;
  data_controller : pystr;
  data_processor : pystr;
  data_location : pystr;
  retention_period : pystr;
  security_measures : list pystr;
  timestamp : pystr
}.

End Processing.

Module Impact.

(** The dictionary returned by [assess_privacy_impact]. *)
Record report : Type := {
  dpia_required : bool;
  risk_score : Z;
  risk_level : pystr;
  risk_factors : list pystr;
  recommendation : pystr;
  assessment_date : pystr
}.

End Impact.

Section Generators.

(** [hashlib.sha256(data).hexdigest()]. *)
Variable sha256_hexdigest : list N -> pystr.

(** [generate_consent_record]; [legal_basis = None] is the omitted
    argument, [clock k] the k-th reading of [datetime.utcnow()]. *)
Definition generate_consent_record (clock : nat -> datetime)
           (patient_id consent_type : pystr) (consent_given : bool)
           (purpose : pystr) (legal_basis : option pystr) : result Consent.record :=
  let legal_basis :=
    match legal_basis with
    | None => u "Article 6(1)(a) - Consent"
    | Some basis => basis
    end in
  let timestamp := isoformat (clock 0) in
  data <- encode (patient_id ++ u "-" ++ consent_type ++ u "-" ++ isoformat (clock 1)) ;;
  Ok {| Consent.patient_id := patient_id;
        Consent.consent_type := consent_type;
        Consent.consent_given := consent_given;
        Consent.purpose := purpose;
        Consent.legal_basis := legal_basis;
        Consent.timestamp := timestamp;
        Consent.consent_id := firstn 16 (sha256_hexdigest data);
        Consent.withdrawal_method :=
          u "Contact clinic administration or use patient portal";
        Consent.data_controller := u "MediLocal AI System";
        Consent.retention_period :=
          dict_get_default GDPRCompliance.RETENTION_PERIODS (u "consent_records") 2555%Z |}.

(** [create_data_processing_record]. *)
Definition create_data_processing_record (clock : nat -> datetime)
           (activity patient_id : pystr) (data_types : list pystr)
           (purpose legal_basis : pystr) : result Processing.record :=
  data <- encode (activity ++ u "-" ++ patient_id ++ u "-" ++ isoformat (clock 0)) ;;
  expiry <- GDPRCompliance.calculate_retention_date (clock 1) (u "medical_records") None ;;
  Ok {| Processing.record_id := firstn 16 (sha256_hexdigest data);
        Processing.activity := activity;
        Processing.patient_id := patient_id;
        Processing.data_types := data_types;
        Processing.purpose := purpose;
        Processing.legal_basis := legal_basis;
        Processing.data_controller := u "Medical Practice using MediLocal AI";
        Processing.data_processor := u "MediLocal AI System (Local Processing)";
        Processing.data_location := u "Local device - no cloud processing";
        Processing.retention_period := isoformat expiry;
        Processing.security_measures :=
          [u "Local processing only"; u "Automatic anonymization";
           u "Encrypted data storage"; u "Access logging";
           u "Regular security updates"];
        Processing.timestamp := isoformat (clock 2) |}.

End Generators.

(** The loop-free body of [assess_privacy_impact]: score and factors
    after the four checks, in source order. *)
Definition assess_risk (processing_activity data_sensitivity data_volume : pystr)
           (automated_decisions : bool) : Z * list pystr :=
  let risk_score := 0%Z in
  let risk_factors : list pystr := [] in
  let '(risk_score, risk_factors) :=
    if existsb (pystr_eqb processing_activity)
               [u "profiling"; u "automated_decision_making"; u "large_scale_processing"]
    then ((risk_score + 30)%Z,
          risk_factors ++ [u "High-risk activity: " ++ processing_activity])
    else (risk_score, risk_factors) in
  let '(risk_score, risk_factors) :=
    if pystr_eqb data_sensitivity (u "special_category")
    then ((risk_score + 25)%Z,
          risk_factors ++ [u "Special category data (health data)"])
    else (risk_score, risk_factors) in
  let '(risk_score, risk_factors) :=
    if pystr_eqb data_volume (u "large_scale")
    then ((risk_score + 20)%Z, risk_factors ++ [u "Large scale data processing"])
    else (risk_score, risk_factors) in
  if automated_decisions
  then ((risk_score + 25)%Z, risk_factors ++ [u "Automated decision making"])
  else (risk_score, risk_factors).

(** [assess_privacy_impact]. *)
Definition assess_privacy_impact (utcnow : datetime)
           (processing_activity data_sensitivity data_volume : pystr)
           (automated_decisions : bool) : Impact.report :=
  let '(risk_score, risk_factors) :=
    assess_risk processing_activity data_sensitivity data_volume automated_decisions in
  let dpia_required := (50 <=? risk_score)%Z in
  {| Impact.dpia_required := dpia_required;
     Impact.risk_score := risk_score;
     Impact.risk_level :=
       if (70 <=? risk_score)%Z then u "high"
       else if (40 <=? risk_score)%Z then u "medium"
       else u "low";
     Impact.risk_factors := risk_factors;
     Impact.recommendation :=
       if dpia_required then u "Conduct DPIA before processing"
       else u "DPIA not required but recommended for documentation";
     Impact.assessment_date := isoformat utcnow |}.

End GDPRRecords.

(* ================================================================== *)
(** * Properties as the specification words them *)

Module Spec.

Import AnonymizationService.

(** The rules of the catalog in the order the redactor reaches them,
    each with its pattern type. *)
Definition rules : list (pystr * regex) :=
  flat_map (fun kv => map (pair (fst kv)) (snd kv)) patterns.

(** Offset of a pattern type in the catalog (its length if absent). *)
Fixpoint index_of (k : pystr) (ks : list pystr) : nat :=
  match ks with
  | [] => O
  | k' :: ks' => if pystr_eqb k' k then O else S (index_of k ks')
  end.

Definition catalog_index (pattern_type : pystr) : nat :=
  index_of pattern_type (dict_keys patterns).

(** How many of the first [k] ledger entries have pattern type [ty]. *)
Definition earlier_of_type (ledger : list replacement_entry) (k : nat) (ty : pystr) : nat :=
  length (filter (fun e => pystr_eqb (type e) ty) (firstn k ledger)).

(** Numbering by a per-category counter: the n-th entry of a pattern
    type carries number n. *)
Definition per_category_numbered (ledger : list replacement_entry) : Prop :=
  forall k e, nth_error ledger k = Some e ->
    replacement e = _generate_replacement (type e) (S (earlier_of_type ledger k (type e))).

(** Numbering by one counter for the whole run: the k-th entry of the
    ledger carries number k, whatever its pattern type. *)
Definition run_numbered (ledger : list replacement_entry) : Prop :=
  forall k e, nth_error ledger k = Some e ->
    replacement e = _generate_replacement (type e) (S k).

(** Pattern types appear in catalog order. *)
Definition in_catalog_order (ledger : list replacement_entry) : Prop :=
  forall i j ei ej, i < j ->
    nth_error ledger i = Some ei -> nth_error ledger j = Some ej ->
    catalog_index (type ei) <= catalog_index (type ej).

(** Entries of one pattern type appear by increasing start offset. *)
Definition left_to_right_per_category (ledger : list replacement_entry) : Prop :=
  forall i j ei ej, i < j ->
    nth_error ledger i = Some ei -> nth_error ledger j = Some ej ->
    type ei = type ej ->
    fst (position ei) <= fst (position ej).

(** Spans that follow one another without overlap, none of them empty,
    all at or after offset [lo]. *)
Fixpoint left_to_right (lo : nat) (spans : list (nat * nat)) : Prop :=
  match spans with
  | [] => True
  | (s, e) :: rest => lo <= s /\ s < e /\ left_to_right e rest
  end.

(** The working text once the entries of a segment have been applied
    to it one after the other: each replaces the first occurrence of
    its literal by its placeholder. *)
Definition rewritten (working : pystr) (segment : list replacement_entry) : pystr :=
  fold_left (fun t e => replace_first t (original e) (replacement e)) segment working.

(** A segment holds what one rule finds on the working text it is
    scanned on: one entry per match of the rule and in the order of the
    matches, each with the rule's pattern type, the span of its match
    and the literal that span covers in the working text; the spans run
    left to right without overlap. *)
Definition segment_of (U : ucd) (rule : pystr * regex) (working : pystr)
           (segment : list replacement_entry) : Prop :=
  map position segment = finditer U (snd rule) working IGNORECASE /\
  Forall (fun e => type e = fst rule /\ original e = group working (position e))
         segment /\
  left_to_right 0 (map position segment).

(** One segment per rule, in rule order; the first rule is scanned on
    [working], every later rule on the text as the segments before it
    have rewritten it. *)
Fixpoint segmented_from (U : ucd) (working : pystr) (rs : list (pystr * regex))
         (segments : list (list replacement_entry)) : Prop :=
  match rs, segments with
  | [], [] => True
  | rule :: rs', segment :: segments' =>
      segment_of U rule working segment /\
      segmented_from U (rewritten working segment) rs' segments'
  | _, _ => False
  end.

(** The ledger of a run on [text] splits into one segment per rule of
    the catalog, in rule order, each holding that rule's matches on the
    working text it was scanned on. *)
Definition segmented_by_rule (U : ucd) (text : pystr)
           (ledger : list replacement_entry) : Prop :=
  exists segments : list (list replacement_entry),
    ledger = concat segments /\ segmented_from U text rules segments.

(** A rule matches somewhere in a text: some start offset allows a
    match. *)
Definition occurs_in (U : ucd) (r : regex) (text : pystr) : Prop :=
  exists s, s <= length text /\ match_at U IGNORECASE r text s <> [].

Definition some_rule_occurs (U : ucd) (text : pystr) : Prop :=
  exists rule, In rule rules /\ occurs_in U (snd rule) text.

(** One step of the redactor's loop over the flattened rule list. *)
Definition on_rule (U : ucd) (st : redaction_state) (rule : pystr * regex)
  : redaction_state :=
  on_pattern U (fst rule) st (snd rule).

(** The entries one rule appends for its spans, the ledger holding [n]
    entries when the rule starts. *)
Fixpoint entries_of (pattern_type scanned : pystr) (n : nat)
         (spans : list (nat * nat)) : list replacement_entry :=
  match spans with
  | [] => []
  | span :: rest =>
      {| original := group scanned span;
         replacement := _generate_replacement pattern_type (n + 1);
         type := pattern_type;
         position := span |} :: entries_of pattern_type scanned (S n) rest
  end.

Fixpoint nondecreasing_from (m : nat) (l : list nat) : bool :=
  match l with
  | [] => true
  | x :: l' => (m <=? x) && nondecreasing_from x l'
  end.

(** Fewest characters a match of [r] spans. *)
Fixpoint min_len (r : regex) : nat :=
  match r with
  | Eps | WordB | Opt _ => 0
  | OneOf _ => 1
  | Rep lo _ _ => lo
  | Cat r1 r2 => min_len r1 + min_len r2
  | Alt r1 r2 => Nat.min (min_len r1) (min_len r2)
  end.

(** The matches reported for [b] contain those reported for [a], a
    match being one detected occurrence: every literal of [a] is
    reported for [b] at least as often. *)
Definition included_with_multiplicity (a b : list pystr) : Prop :=
  forall x, count_occ pystr_eq_dec a x <= count_occ pystr_eq_dec b x.

(** The leaked literals each validator reports for a text. *)
Definition leaked_reduced (U : ucd) (text : pystr) : list pystr :=
  potential_issues (AnonymizationService.validate_anonymization U [] text).

Definition leaked_full (U : ucd) (utcnow : datetime) (text : pystr) : list pystr :=
  flat_map GDPRCompliance.matches
           (GDPRCompliance.issues (GDPRCompliance.validate_anonymization U utcnow text)).

(** [d] moved forward by [n] days. *)
Definition days_later (d : datetime) (n : Z) : datetime :=
  {| toordinal := toordinal d + n; hour := hour d; minute := minute d;
     second := second d; microsecond := microsecond d |}.

(** Code points [str.encode] accepts. *)
Definition encodable_char (c : N) : bool :=
  ((c <? 55296) || ((57343 <? c) && (c <? 1114112)))%N.

Definition encodable (s : pystr) : Prop := forallb encodable_char s = true.

(** The consultation note of the specification's scenario and what it
    is said to give: a ledger of one entry, a date match of the literal,
    replaced by the first date placeholder. *)
Definition consultation_note : pystr :=
  u "Konsultation vom 15.12.2023: Patient klagt über Kopfschmerzen.".

Definition single_date_redaction (r : anonymization_result) : Prop :=
  exists e, replacements r = [e] /\
            type e = u "dates" /\
            original e = u "15.12.2023" /\
            contains (anonymized_text r) (u "[DATUM_1]") = true.

(** For "Patient: Max Mustermann": the two names entries in the order
    of their offsets, which is not the order the redactor records them
    in. *)
Definition name_after_patient : list replacement_entry :=
  [ {| original := u "Patient"; replacement := u "[NAME_1]";
       type := u "names"; position := (0, 7) |};
    {| original := u "Max Mustermann"; replacement := u "[NAME_2]";
       type := u "names"; position := (9, 23) |} ].

(** The contact line of the specification's validator scenario. *)
Definition contact_line : pystr :=
  u "Patient: Max Mustermann, Tel: 030-12345678, max@example.com".

(** The finding the full validator reports for one category, if any. *)
Definition finding_of (U : ucd) (text : pystr) (kv : pystr * regex)
  : list GDPRCompliance.issue :=
  match findall U (snd kv) text GDPRCompliance.IGNORECASE with
  | [] => []
  | m => [ {| GDPRCompliance.issue_type := fst kv;
              GDPRCompliance.matches := m;
              GDPRCompliance.severity := GDPRCompliance.severity_of (fst kv) |} ]
  end.

(** All matches of all seven category patterns in a text. *)
Definition all_matches (U : ucd) (text : pystr) : list pystr :=
  flat_map (fun kv => findall U (snd kv) text GDPRCompliance.IGNORECASE)
           GDPRCompliance.SENSITIVE_PATTERNS.

Definition high_severity_categories : list pystr :=
  [u "german_names"; u "addresses"; u "phone_numbers"].

(** Two texts for comparing scores: one name, and that name followed
    by another. *)
Definition one_name : pystr := u "Max Mustermann".

Definition two_names : pystr := u "Max Mustermann. Eva Schmidt".

(** A fixed reading of the clock for the scenarios, 2024-01-01T00:00:00. *)
Definition new_year_2024 : datetime :=
  {| toordinal := 738886; hour := 0; minute := 0; second := 0; microsecond := 0 |}.

(** The last day a [datetime] can hold, 9999-12-31T00:00:00. *)
Definition last_day : datetime :=
  {| toordinal := MAXORDINAL; hour := 0; minute := 0; second := 0; microsecond := 0 |}.

(** The retention table as the specification lists it. *)
Definition fixed_days (data_type : pystr) : Z :=
  if pystr_eqb data_type (u "medical_records") then 2555
  else if pystr_eqb data_type (u "audit_logs") then 2190
  else if pystr_eqb data_type (u "ai_interactions") then 1095
  else if pystr_eqb data_type (u "consent_records") then 2555
  else if pystr_eqb data_type (u "anonymized_data") then 3650
  else 2555.

(** The seven request types as the specification lists them. *)
Definition request_types : list pystr :=
  [u "access"; u "rectification"; u "erasure"; u "restrict_processing";
   u "data_portability"; u "object"; u "withdraw_consent"].

End Spec.

(* ================================================================== *)
(** * Vocabulary for the further properties *)

Module Extra.

Import AnonymizationService.

(** [int(s)] for a string of decimal digits. *)
Definition nat_of_digits (s : pystr) : nat :=
  fold_left (fun acc c => 10 * acc + N.to_nat (c - 48)) s 0.

(** The label each pattern type has in [_generate_replacement]. *)
Definition placeholder_tags : dict pystr :=
  [ (u "names", u "NAME");
    (u "addresses", u "ADRESSE");
    (u "phones", u "TELEFON");
    (u "emails", u "EMAIL");
    (u "ids", u "ID");
    (u "dates", u "DATUM");
    (u "insurance", u "VERSICHERUNG") ].

(** [[TAG_n]]. *)
Definition placeholder (tag : pystr) (n : nat) : pystr :=
  u "[" ++ tag ++ u "_" ++ str_of_nat n ++ u "]".

(** A span that is not empty and lies inside the text. *)
Definition span_within (text : pystr) (span : nat * nat) : Prop :=
  fst span < snd span /\ snd span <= length text.

(** A literal that is not empty and occurs in the text. *)
Definition occurs_nonempty (text literal : pystr) : Prop :=
  literal <> [] /\ contains text literal = true.

(** The categories of [SENSITIVE_PATTERNS] whose pattern has a match,
    in dictionary order. *)
Definition matched_categories (U : ucd) (text : pystr) : list pystr :=
  map fst (filter (fun kv => match findall U (snd kv) text GDPRCompliance.IGNORECASE with
                             | [] => false
                             | _ :: _ => true
                             end)
                  GDPRCompliance.SENSITIVE_PATTERNS).

(** How many of the four risk conditions of [assess_privacy_impact]
    hold. *)
Definition risk_conditions (processing_activity data_sensitivity data_volume : pystr)
           (automated_decisions : bool) : nat :=
  (if existsb (pystr_eqb processing_activity)
              [u "profiling"; u "automated_decision_making"; u "large_scale_processing"]
   then 1 else 0) +
  (if pystr_eqb data_sensitivity (u "special_category") then 1 else 0) +
  (if pystr_eqb data_volume (u "large_scale") then 1 else 0) +
  (if automated_decisions then 1 else 0).

(** A clock reading from which [days] more days still fit a datetime. *)
Definition days_fit (d : datetime) (days : Z) : Prop :=
  (0 < toordinal d + days <= MAXORDINAL)%Z.

(** Two exceptions an awaited request can end with, and whether each
    is an instance of [Exception]: [httpx.ConnectError] is,
    [asyncio.CancelledError] derives from [BaseException] only. *)
Inductive client_exception : Type := ConnectError | CancelledError.

Definition derives_from_Exception (e : client_exception) : bool :=
  match e with
  | ConnectError => true
  | CancelledError => false
  end.

End Extra.

(* ================================================================== *)
(** * The matcher *)

Import AnonymizationService Spec.

(** Replace a closed term by its value, wherever it occurs. *)
Ltac evaluate t :=
  let x := fresh "x" in
  let E := fresh "E" in
  remember t as x eqn:E; vm_compute in E; subst x.

(** The scenario texts stay inside U+0000..U+00FF, where the [latin1]
    database is exact. *)
Remark scenario_texts_are_latin1 :
  Forall (fun text => forallb (fun c => (c <? 256)%N) text = true)
         [consultation_note; contact_line; two_names; one_name;
          u "Max Mustermann 15.03.1980"; u "Patient: Max Mustermann"].
Proof. repeat constructor. Qed.

Section EngineFacts.

Variable U : ucd.
Variable ignorecase : bool.

Lemma in_flat_map_inv (A B : Type) (f : A -> list B) (l : list A) (y : B) :
  In y (flat_map f l) -> exists x, In x l /\ In y (f x).
Proof. intro H. apply in_flat_map in H. exact H. Qed.

(** A match of [r] spans at least [min_len r] characters. *)
Lemma match_at_min_len (r : regex) (text : pystr) :
  forall i e, In e (match_at U ignorecase r text i) -> i + min_len r <= e.
Proof.
  induction r as [ | cs | lo hi cs | r IH | r1 IH1 r2 IH2 | r1 IH1 r2 IH2 | ];
    intros i e H; simpl in *.
  - destruct H as [<- | []]. lia.
  - destruct (nth_error text i) as [c|]; [|contradiction].
    destruct (in_charset U ignorecase cs c); [|contradiction].
    destruct H as [<- | []]. lia.
  - destruct (_ <? lo); [contradiction|].
    apply in_map_iff in H. destruct H as (j & <- & Hj).
    apply in_rev, in_seq in Hj. lia.
  - apply in_app_or in H. destruct H as [H | [<- | []]].
    + apply IH in H. lia.
    + lia.
  - apply in_flat_map_inv in H. destruct H as (m & Hm & He).
    apply IH1 in Hm. apply IH2 in He. lia.
  - apply in_app_or in H. destruct H as [H | H].
    + apply IH1 in H. lia.
    + apply IH2 in H. lia.
  - destruct (at_boundary U text i); [|contradiction].
    destruct H as [<- | []]. lia.
Qed.

Lemma first_end_free (r : regex) (text : pystr) (s : nat) :
  first_end U ignorecase r text s false = hd_error (match_at U ignorecase r text s).
Proof.
  unfold first_end. f_equal.
  induction (match_at U ignorecase r text s) as [|e l IH]; simpl; [reflexivity|].
  f_equal. exact IH.
Qed.

Lemma first_end_none (r : regex) (text : pystr) (s : nat) :
  first_end U ignorecase r text s false = None <->
  match_at U ignorecase r text s = [].
Proof.
  rewrite first_end_free.
  destruct (match_at U ignorecase r text s); simpl; split; congruence.
Qed.

Lemma first_end_min_len (r : regex) (text : pystr) (s : nat) (b : bool) (e : nat) :
  first_end U ignorecase r text s b = Some e -> s + min_len r <= e.
Proof.
  unfold first_end. intro H.
  apply match_at_min_len with (text := text).
  set (l := match_at U ignorecase r text s) in *. clearbody l.
  induction l as [|x l IH]; simpl in H; [discriminate|].
  destruct (negb _).
  - simpl in H. injection H as ->. now left.
  - right. now apply IH.
Qed.

Lemma left_to_right_weaken (spans : list (nat * nat)) (lo lo' : nat) :
  lo' <= lo -> left_to_right lo spans -> left_to_right lo' spans.
Proof.
  destruct spans as [|[s e] rest]; simpl; [trivial|].
  intros Hle (H1 & H2 & H3). repeat split; try assumption. lia.
Qed.

(** The spans a scan reports run left to right and do not overlap,
    provided the rule cannot match the empty string. *)
Lemma scan_left_to_right (r : regex) (text : pystr) :
  0 < min_len r ->
  forall n a pos,
    left_to_right (Nat.max a pos) (scan U ignorecase r text (seq a n) pos).
Proof.
  intros Hpos n. induction n as [|n IH]; intros a pos; simpl; [exact I|].
  destruct (Nat.ltb_spec a pos) as [Hlt | Hge].
  - eapply left_to_right_weaken; [|apply IH]. lia.
  - destruct (first_end U ignorecase r text a false) as [e|] eqn:Hfe.
    + pose proof (first_end_min_len _ _ _ _ Hfe) as Hlen.
      destruct (Nat.eqb_spec e a) as [-> | Hne]; [lia|].
      simpl. repeat split; try lia.
      eapply left_to_right_weaken; [|apply IH]. lia.
    + eapply left_to_right_weaken; [|apply IH]. lia.
Qed.

Lemma finditer_left_to_right (r : regex) (text : pystr) :
  0 < min_len r -> left_to_right 0 (finditer U r text ignorecase).
Proof.
  intro H. unfold finditer.
  apply (scan_left_to_right) with (text := text) (n := S (length text)) (a := 0) (pos := 0) in H.
  exact H.
Qed.

(** A scan reports nothing exactly when no visited start offset allows
    a match. *)
Lemma scan_nil (r : regex) (text : pystr) (starts : list nat) (pos : nat) :
  scan U ignorecase r text starts pos = [] <->
  forall s, In s starts -> pos <= s -> match_at U ignorecase r text s = [].
Proof.
  induction starts as [|a starts IH]; simpl.
  - split; [intros _ s [] | reflexivity].
  - destruct (Nat.ltb_spec a pos) as [Hlt | Hge].
    + rewrite IH. split.
      * intros H s [<- | Hs] Hle; [lia | now apply H].
      * intros H s Hs Hle. apply H; [now right | assumption].
    + destruct (first_end U ignorecase r text a false) as [e|] eqn:Hfe.
      * split.
        -- destruct (e =? a); discriminate.
        -- intro H. specialize (H a (or_introl eq_refl) Hge).
           apply first_end_none in H. congruence.
      * apply first_end_none in Hfe. rewrite IH. split.
        -- intros H s [<- | Hs] Hle; [assumption | now apply H].
        -- intros H s Hs Hle. apply H; [now right | assumption].
Qed.

Lemma finditer_nil (r : regex) (text : pystr) :
  finditer U r text ignorecase = [] <->
  forall s, s <= length text -> match_at U ignorecase r text s = [].
Proof.
  unfold finditer. rewrite scan_nil. split.
  - intros H s Hs. apply H; [|lia]. apply in_seq. lia.
  - intros H s Hs _. apply H. apply in_seq in Hs. lia.
Qed.

Lemma findall_length (r : regex) (text : pystr) :
  length (findall U r text ignorecase) = length (finditer U r text ignorecase).
Proof. unfold findall. apply length_map. Qed.

End EngineFacts.

(* ================================================================== *)
(** * The redactor *)

Section RedactorFacts.

Variable U : ucd.

Lemma fold_left_preserves (A B : Type) (P : A -> Prop) (f : A -> B -> A) :
  (forall a b, P a -> P (f a b)) ->
  forall l a, P a -> P (fold_left f l a).
Proof.
  intros Hf l. induction l as [|b l IH]; simpl; intros a Ha; [assumption|].
  apply IH, Hf, Ha.
Qed.

Lemma rules_loop_of (ps : dict (list regex)) :
  forall st,
    fold_left (on_pattern_type U) ps st =
    fold_left (on_rule U) (flat_map (fun kv => map (pair (fst kv)) (snd kv)) ps) st.
Proof.
  induction ps as [|[ty rs] ps IH]; intro st; simpl; [reflexivity|].
  rewrite fold_left_app, <- IH. f_equal.
  unfold on_pattern_type. simpl. clear IH.
  revert st. induction rs as [|r rs IHrs]; intro st; simpl; [reflexivity|].
  apply IHrs.
Qed.

Lemma rules_loop (st : redaction_state) :
  fold_left (on_pattern_type U) patterns st = fold_left (on_rule U) rules st.
Proof. apply rules_loop_of. Qed.

Lemma on_match_ledger (pattern_type scanned : pystr) (spans : list (nat * nat)) :
  forall st,
    snd (fold_left (on_match pattern_type scanned) spans st) =
    snd st ++ entries_of pattern_type scanned (length (snd st)) spans.
Proof.
  induction spans as [|span rest IH]; intros [a l]; simpl.
  - now rewrite app_nil_r.
  - rewrite IH. simpl. rewrite length_app, <- app_assoc. simpl.
    now rewrite Nat.add_1_r.
Qed.

Lemma on_rule_ledger (st : redaction_state) (rule : pystr * regex) :
  snd (on_rule U st rule) =
  snd st ++ entries_of (fst rule) (fst st) (length (snd st))
                       (finditer U (snd rule) (fst st) IGNORECASE).
Proof. unfold on_rule, on_pattern. apply on_match_ledger. Qed.

Lemma on_rule_idle (st : redaction_state) (rule : pystr * regex) :
  finditer U (snd rule) (fst st) IGNORECASE = [] -> on_rule U st rule = st.
Proof. unfold on_rule, on_pattern. now intros ->. Qed.

Lemma entries_of_type (pattern_type scanned : pystr) (spans : list (nat * nat)) :
  forall n, Forall (fun e => type e = pattern_type)
                   (entries_of pattern_type scanned n spans).
Proof.
  induction spans as [|span rest IH]; intro n; simpl; constructor; auto.
Qed.

Lemma entries_of_position (pattern_type scanned : pystr) (spans : list (nat * nat)) :
  forall n, map position (entries_of pattern_type scanned n spans) = spans.
Proof.
  induction spans as [|span rest IH]; intro n; simpl; [reflexivity|].
  now rewrite IH.
Qed.

Lemma entries_of_numbered (pattern_type scanned : pystr) (spans : list (nat * nat)) :
  forall n k e,
    nth_error (entries_of pattern_type scanned n spans) k = Some e ->
    replacement e = _generate_replacement (type e) (S (n + k)).
Proof.
  induction spans as [|span rest IH]; intros n k e H; simpl in H.
  - destruct k; discriminate.
  - destruct k as [|k]; simpl in H.
    + injection H as <-. simpl. now rewrite Nat.add_0_r, Nat.add_1_r.
    + apply IH in H. rewrite H. f_equal. lia.
Qed.

Lemma nth_error_app_cases (A : Type) (l1 l2 : list A) (k : nat) (x : A) :
  nth_error (l1 ++ l2) k = Some x ->
  (k < length l1 /\ nth_error l1 k = Some x) \/
  (length l1 <= k /\ nth_error l2 (k - length l1) = Some x).
Proof.
  intro H. destruct (Nat.lt_ge_cases k (length l1)) as [Hlt | Hge].
  - left. split; [assumption|]. now rewrite nth_error_app1 in H.
  - right. split; [assumption|]. now rewrite nth_error_app2 in H.
Qed.

(** The run-wide numbering survives every rule. *)
Lemma on_rule_run_numbered (st : redaction_state) (rule : pystr * regex) :
  run_numbered (snd st) -> run_numbered (snd (on_rule U st rule)).
Proof.
  intros Hst k e H. rewrite on_rule_ledger in H.
  apply nth_error_app_cases in H. destruct H as [[_ H] | [Hge H]].
  - now apply Hst.
  - apply entries_of_numbered in H. rewrite H. f_equal. lia.
Qed.

(** The fields of the result, read off the final loop state. *)
Lemma result_of_loop (text : pystr) :
  let st := fold_left (on_rule U) rules (text, []) in
  _anonymize_locally U text =
  {| original_text := text;
     anonymized_text := fst st;
     replacements := snd st;
     replacement_count := length (snd st);
     gdpr_compliant := true;
     anonymization_method := u "local_regex_processing" |}.
Proof.
  unfold _anonymize_locally. rewrite rules_loop.
  destruct (fold_left (on_rule U) rules (text, [])) as [a l]. reflexivity.
Qed.

Lemma replacements_of_loop (text : pystr) :
  replacements (_anonymize_locally U text) =
  snd (fold_left (on_rule U) rules (text, [])).
Proof. now rewrite result_of_loop. Qed.

Lemma ledger_run_numbered (text : pystr) :
  run_numbered (replacements (_anonymize_locally U text)).
Proof.
  rewrite replacements_of_loop.
  apply (fold_left_preserves (fun st => run_numbered (snd st)) (on_rule U)).
  - intros a b. apply on_rule_run_numbered.
  - intros k e Hk. destruct k; discriminate.
Qed.

Lemma entries_of_slices (pattern_type scanned : pystr) (spans : list (nat * nat)) :
  forall n, Forall (fun e => type e = pattern_type /\
                             original e = group scanned (position e))
                   (entries_of pattern_type scanned n spans).
Proof.
  induction spans as [|span rest IH]; intro n; simpl; constructor; auto.
Qed.

(** The working text a rule leaves behind is the one it was scanned on,
    rewritten by the entries the rule appended. *)
Lemma on_match_text (pattern_type scanned : pystr) (spans : list (nat * nat)) :
  forall st,
    fst (fold_left (on_match pattern_type scanned) spans st) =
    rewritten (fst st) (entries_of pattern_type scanned (length (snd st)) spans).
Proof.
  induction spans as [|span rest IH]; intros [a l]; [reflexivity|].
  cbn [fold_left on_match]. rewrite IH. cbn [fst snd entries_of].
  rewrite length_app. cbn [length]. rewrite Nat.add_1_r. reflexivity.
Qed.

Lemma on_rule_text (st : redaction_state) (rule : pystr * regex) :
  fst (on_rule U st rule) =
  rewritten (fst st) (entries_of (fst rule) (fst st) (length (snd st))
                                 (finditer U (snd rule) (fst st) IGNORECASE)).
Proof. unfold on_rule, on_pattern. apply on_match_text. Qed.

(** Segments: one per rule, each the rule's matches on the working
    text the loop holds when it reaches the rule. *)
Lemma rules_segments (rs : list (pystr * regex)) :
  Forall (fun rule => 0 < min_len (snd rule)) rs ->
  forall st, exists segments,
    snd (fold_left (on_rule U) rs st) = snd st ++ concat segments /\
    segmented_from U (fst st) rs segments.
Proof.
  induction 1 as [|rule rs Hrule _ IH]; intros st.
  - exists []. split; [cbn [fold_left concat]; now rewrite app_nil_r | exact I].
  - destruct (IH (on_rule U st rule)) as (segments & Heq & Hall).
    exists (entries_of (fst rule) (fst st) (length (snd st))
                       (finditer U (snd rule) (fst st) IGNORECASE) :: segments).
    split.
    + cbn [fold_left concat]. rewrite Heq, on_rule_ledger. now rewrite app_assoc.
    + cbn [segmented_from]. rewrite on_rule_text in Hall. split; [|exact Hall].
      split; [apply entries_of_position|]. split; [apply entries_of_slices|].
      rewrite entries_of_position. now apply finditer_left_to_right.
Qed.

Lemma catalog_rules_consume : Forall (fun rule => 0 < min_len (snd rule)) rules.
Proof.
  apply Forall_forall. intros rule Hin. apply Nat.ltb_lt.
  assert (H : forallb (fun rule => 0 <? min_len (snd rule)) rules = true)
    by (vm_compute; reflexivity).
  rewrite forallb_forall in H. now apply H.
Qed.

Lemma ledger_segmented (text : pystr) :
  segmented_by_rule U text (replacements (_anonymize_locally U text)).
Proof.
  rewrite replacements_of_loop.
  destruct (rules_segments catalog_rules_consume (text, [])) as (segments & Heq & Hall).
  exists segments. split; [exact Heq | exact Hall].
Qed.

(** Together with the numbering of the run, the segmentation leaves
    room for one ledger only. *)
Lemma segment_determined (pattern_type working : pystr) :
  forall (segment : list replacement_entry) (n : nat),
    Forall (fun e => type e = pattern_type /\
                     original e = group working (position e)) segment ->
    (forall k e, nth_error segment k = Some e ->
                 replacement e = _generate_replacement (type e) (S (n + k))) ->
    segment = entries_of pattern_type working n (map position segment).
Proof.
  induction segment as [|e segment IH]; intros n Hall Hnum; [reflexivity|].
  inversion Hall as [|x l [Hty Horig] Hrest]; subst x l.
  cbn [map entries_of]. f_equal.
  - pose proof (Hnum 0 e eq_refl) as Hrep.
    rewrite Nat.add_0_r, <- Nat.add_1_r, Hty in Hrep.
    destruct e as [o r t p]. cbn [original replacement type position] in *.
    congruence.
  - apply IH; [assumption|].
    intros k e' Hk. rewrite (Hnum (S k) e' Hk). f_equal. lia.
Qed.

Lemma segments_determined (rs : list (pystr * regex)) :
  forall (segments : list (list replacement_entry)) (st : redaction_state),
    segmented_from U (fst st) rs segments ->
    run_numbered (snd st ++ concat segments) ->
    snd (fold_left (on_rule U) rs st) = snd st ++ concat segments.
Proof.
  induction rs as [|rule rs IH]; intros [|segment segments] st Hseg Hnum;
    cbn [segmented_from] in Hseg; try contradiction.
  - cbn [fold_left concat]. now rewrite app_nil_r.
  - destruct Hseg as [(Hpos & Hall & _) Hseg]. cbn [concat] in *.
    assert (Hsegment : segment =
                       entries_of (fst rule) (fst st) (length (snd st))
                                  (finditer U (snd rule) (fst st) IGNORECASE)).
    { rewrite <- Hpos. apply segment_determined; [assumption|].
      intros k e Hk. apply Hnum.
      rewrite nth_error_app2 by lia.
      replace (length (snd st) + k - length (snd st)) with k by lia.
      rewrite nth_error_app1; [assumption|].
      apply nth_error_Some. congruence. }
    cbn [fold_left].
    assert (Hstep : on_rule U st rule = (rewritten (fst st) segment, snd st ++ segment)).
    { rewrite (surjective_pairing (on_rule U st rule)).
      rewrite on_rule_text, on_rule_ledger, <- Hsegment. reflexivity. }
    rewrite Hstep, app_assoc.
    apply (IH segments (rewritten (fst st) segment, snd st ++ segment)).
    + exact Hseg.
    + cbn [snd]. now rewrite <- app_assoc.
Qed.

Lemma ledger_determined (text : pystr) (ledger : list replacement_entry) :
  segmented_by_rule U text ledger -> run_numbered ledger ->
  ledger = replacements (_anonymize_locally U text).
Proof.
  intros (segments & -> & Hsegments) Hnum.
  rewrite replacements_of_loop.
  symmetry. apply (segments_determined rules segments (text, [])); assumption.
Qed.

(** Pattern types never go back in the catalog. *)
Lemma rules_catalog_order (rs : list (pystr * regex)) :
  forall st m,
    nondecreasing_from m (map (fun rule => catalog_index (fst rule)) rs) = true ->
    in_catalog_order (snd st) ->
    Forall (fun e => catalog_index (type e) <= m) (snd st) ->
    in_catalog_order (snd (fold_left (on_rule U) rs st)).
Proof.
  induction rs as [|rule rs IH]; intros st m Hnd Hord Hbound; simpl; [assumption|].
  simpl in Hnd. apply andb_true_iff in Hnd. destruct Hnd as [Hm Hnd].
  apply Nat.leb_le in Hm.
  pose proof (entries_of_type (fst rule) (fst st)
                (finditer U (snd rule) (fst st) IGNORECASE) (length (snd st))) as Hty.
  rewrite Forall_forall in Hty, Hbound.
  apply IH with (m := catalog_index (fst rule)); [assumption| |].
  - intros i j ei ej Hij Hi Hj. rewrite on_rule_ledger in Hi, Hj.
    apply nth_error_app_cases in Hi. apply nth_error_app_cases in Hj.
    destruct Hi as [[Hil Hi] | [Hil Hi]], Hj as [[Hjl Hj] | [Hjl Hj]].
    + now apply (Hord i j).
    + apply nth_error_In in Hi, Hj. apply Hbound in Hi. apply Hty in Hj.
      rewrite Hj. lia.
    + lia.
    + apply nth_error_In in Hi, Hj. apply Hty in Hi, Hj. rewrite Hi, Hj. lia.
  - rewrite on_rule_ledger. apply Forall_forall. intros e He.
    apply in_app_or in He. destruct He as [He | He].
    + apply Hbound in He. lia.
    + apply Hty in He. rewrite He. lia.
Qed.

Lemma catalog_rules_sorted :
  nondecreasing_from 0 (map (fun rule => catalog_index (fst rule)) rules) = true.
Proof. vm_compute. reflexivity. Qed.

Lemma ledger_in_catalog_order (text : pystr) :
  in_catalog_order (replacements (_anonymize_locally U text)).
Proof.
  rewrite replacements_of_loop.
  apply rules_catalog_order with (m := 0).
  - exact catalog_rules_sorted.
  - intros i j ei ej _ Hi. destruct i; discriminate.
  - constructor.
Qed.

Lemma entries_of_nil (pattern_type scanned : pystr) (n : nat) (spans : list (nat * nat)) :
  entries_of pattern_type scanned n spans = [] -> spans = [].
Proof. destruct spans; [reflexivity | discriminate]. Qed.

(** The ledger stays empty exactly when no rule finds anything in the
    text the loop started from, and then the text is left as it was. *)
Lemma rules_silent (rs : list (pystr * regex)) :
  forall st,
    snd (fold_left (on_rule U) rs st) = [] <->
    snd st = [] /\
    Forall (fun rule => finditer U (snd rule) (fst st) IGNORECASE = []) rs.
Proof.
  induction rs as [|rule rs IH]; intro st; simpl.
  - split; [intro H; split; [assumption | constructor] | intros [H _]; assumption].
  - rewrite IH. split.
    + intros [Hnil Hall]. rewrite on_rule_ledger in Hnil.
      apply app_eq_nil in Hnil. destruct Hnil as [Hst Hent].
      apply entries_of_nil in Hent.
      rewrite (on_rule_idle st rule Hent) in Hall.
      split; [assumption | constructor; assumption].
    + intros [Hst Hall]. inversion Hall as [|x l Hrule Hrest]; subst.
      rewrite (on_rule_idle st rule Hrule). split; assumption.
Qed.

Lemma rules_silent_state (rs : list (pystr * regex)) :
  forall st,
    Forall (fun rule => finditer U (snd rule) (fst st) IGNORECASE = []) rs ->
    fold_left (on_rule U) rs st = st.
Proof.
  induction rs as [|rule rs IH]; intros st Hall; simpl; [reflexivity|].
  inversion Hall as [|x l Hrule Hrest]; subst.
  rewrite (on_rule_idle st rule Hrule). now apply IH.
Qed.

Lemma no_rule_occurs_iff (text : pystr) :
  ~ some_rule_occurs U text <->
  Forall (fun rule => finditer U (snd rule) text IGNORECASE = []) rules.
Proof.
  rewrite Forall_forall. split.
  - intros Hno rule Hin. apply finditer_nil. intros s Hs.
    destruct (match_at U IGNORECASE (snd rule) text s) as [|e l] eqn:E; [reflexivity|].
    exfalso. apply Hno. exists rule. split; [assumption|].
    exists s. split; [assumption|]. rewrite E. discriminate.
  - intros Hall (rule & Hin & s & Hs & Hne).
    apply Hne. specialize (Hall rule Hin).
    rewrite finditer_nil in Hall. now apply Hall.
Qed.

End RedactorFacts.

(* ================================================================== *)
(** * Claims about the redactor *)

(** C1 (as amended).  In one redaction run every placeholder is
    numbered by a single counter for the whole run, starting at 1: the
    k-th entry of the ledger carries number k together with the label
    of its own pattern type, whatever the types of the entries before
    it. *)
Theorem C1_placeholders_numbered_by_run_counter (U : ucd) (text : pystr) :
  run_numbered (replacements (_anonymize_locally U text)).
Proof. apply ledger_run_numbered. Qed.

(** C1, as the specification words it, fails: in
    "Max Mustermann 15.03.1980" the first date match is the second
    entry of the ledger and gets [DATUM_2], not [DATUM_1]. *)
Lemma C1_per_category_numbering_fails :
  ~ per_category_numbered
      (replacements (_anonymize_locally latin1 (u "Max Mustermann 15.03.1980"))).
Proof.
  intro H.
  evaluate (replacements (_anonymize_locally latin1 (u "Max Mustermann 15.03.1980"))).
  specialize (H 1 _ eq_refl). vm_compute in H. discriminate H.
Qed.

(** C3 (as amended).  The ledger is grouped by pattern type in catalog
    order (names, addresses, phones, emails, ids, dates, insurance);
    inside a pattern type it is grouped by rule in rule order; and the
    entries of one rule appear left to right, without overlap, by their
    positions in the working text that rule was scanned on. *)
Theorem C3_ledger_grouped_by_category_then_rule (U : ucd) (text : pystr) :
  dict_keys patterns =
    [u "names"; u "addresses"; u "phones"; u "emails"; u "ids"; u "dates"; u "insurance"] /\
  in_catalog_order (replacements (_anonymize_locally U text)) /\
  segmented_by_rule U text (replacements (_anonymize_locally U text)).
Proof.
  split; [reflexivity|]. split.
  - apply ledger_in_catalog_order.
  - apply ledger_segmented.
Qed.

(** The segmentation is tied to the matches of each rule: for
    "Patient: Max Mustermann" the ledger that lists "Patient" before
    "Max Mustermann" is left to right inside the names category, yet it
    is not segmented by rule, since the first names rule finds
    "Max Mustermann" at offset 9 and nothing else. *)
Remark name_after_patient_is_not_segmented :
  left_to_right_per_category name_after_patient /\
  ~ segmented_by_rule latin1 (u "Patient: Max Mustermann") name_after_patient.
Proof.
  split.
  - intros i j ei ej Hij Hi Hj _.
    destruct i as [|[|i]], j as [|[|j]]; try lia;
      try (destruct i; discriminate Hi); try (destruct j; discriminate Hj).
    injection Hi as <-. injection Hj as <-. cbn [position fst]. lia.
  - intros (segments & Hledger & Hsegments).
    assert (Hrules : rules = (u "names", names_first_last) :: tl rules)
      by (vm_compute; reflexivity).
    remember (tl rules) as later eqn:Hlater. clear Hlater.
    rewrite Hrules in Hsegments. clear Hrules.
    destruct segments as [|segment segments]; [exact Hsegments|].
    destruct Hsegments as [(Hspans & _ & _) _].
    cbn [snd] in Hspans.
    evaluate (finditer latin1 names_first_last (u "Patient: Max Mustermann") IGNORECASE).
    destruct segment as [|e segment]; [discriminate Hspans|].
    apply (f_equal (fun l => option_map position (hd_error l))) in Hledger.
    unfold name_after_patient in Hledger.
    cbn [concat app hd_error option_map position] in Hledger.
    cbn [map] in Hspans. congruence.
Qed.

(** C3, as the specification words it, fails: in
    "Patient: Max Mustermann" the first names rule reports
    "Max Mustermann" at offset 9 before the third names rule reports
    "Patient" at offset 0. *)
Lemma C3_left_to_right_per_category_fails :
  ~ (in_catalog_order
       (replacements (_anonymize_locally latin1 (u "Patient: Max Mustermann"))) /\
     left_to_right_per_category
       (replacements (_anonymize_locally latin1 (u "Patient: Max Mustermann")))).
Proof.
  intros [_ H].
  evaluate (replacements (_anonymize_locally latin1 (u "Patient: Max Mustermann"))).
  specialize (H 0 1 _ _ (Nat.lt_0_1) eq_refl eq_refl eq_refl).
  vm_compute in H. lia.
Qed.

(** C4.  The redactor is a total function: every text yields a result
    record.  Its ledger is empty exactly when no rule of the catalog
    matches anywhere in the input text, and in that case the result
    still reports success, with the text unchanged. *)
Theorem C4_empty_ledger_iff_no_rule_matches (U : ucd) (text : pystr) :
  (replacements (_anonymize_locally U text) = [] <-> ~ some_rule_occurs U text) /\
  (replacements (_anonymize_locally U text) = [] ->
   anonymized_text (_anonymize_locally U text) = text /\
   replacement_count (_anonymize_locally U text) = 0 /\
   gdpr_compliant (_anonymize_locally U text) = true).
Proof.
  rewrite no_rule_occurs_iff. rewrite result_of_loop. cbv zeta.
  cbn [replacements anonymized_text replacement_count gdpr_compliant].
  split.
  - rewrite rules_silent. cbn [fst snd]. tauto.
  - intro Hnil. apply rules_silent in Hnil. destruct Hnil as [_ Hall].
    rewrite (@rules_silent_state U rules (text, []) Hall). cbn [fst snd length]. auto.
Qed.

(** C10.  Whatever the text, the record returned by the local redactor
    says [gdpr_compliant = True] and
    [anonymization_method = 'local_regex_processing'], carries the input
    unchanged as [original_text], and counts the ledger in
    [replacement_count]. *)
Theorem C10_result_record_is_unconditional (U : ucd) (text : pystr) :
  gdpr_compliant (_anonymize_locally U text) = true /\
  anonymization_method (_anonymize_locally U text) = u "local_regex_processing" /\
  original_text (_anonymize_locally U text) = text /\
  replacement_count (_anonymize_locally U text) =
    length (replacements (_anonymize_locally U text)).
Proof.
  rewrite result_of_loop. cbv zeta.
  cbn [gdpr_compliant anonymization_method original_text replacement_count replacements].
  repeat split.
Qed.

(** The hyphenated-names rule matches a single capitalised word, so the
    scenario's note has name matches whatever the case flag. *)
Remark consultation_note_has_capitalised_words :
  finditer latin1 names_hyphenated consultation_note false =
  [(0, 12); (29, 36); (48, 61)].
Proof. vm_compute. reflexivity. Qed.

(** C2 (as amended).  For the consultation note the ledger has exactly
    one date entry, a match of the literal "15.12.2023"; it comes last,
    after three name entries, so it is the fourth entry of the run and
    is replaced by [DATUM_4], which the anonymized text contains in
    place of the date.  No pattern type other than names and dates
    records a match. *)
Theorem C2_consultation_note_ledger :
  map type (replacements (_anonymize_locally latin1 consultation_note)) =
    [u "names"; u "names"; u "names"; u "dates"] /\
  map (fun e => (original e, replacement e))
      (filter (fun e => pystr_eqb (type e) (u "dates"))
              (replacements (_anonymize_locally latin1 consultation_note))) =
    [(u "15.12.2023", u "[DATUM_4]")] /\
  contains (anonymized_text (_anonymize_locally latin1 consultation_note))
           (u "[DATUM_4]") = true /\
  contains (anonymized_text (_anonymize_locally latin1 consultation_note))
           (u "15.12.2023") = false.
Proof. repeat split; vm_compute; reflexivity. Qed.

(** C2, as the specification words it, fails: the ledger of the
    consultation note has four entries, not one, and the text holds no
    [DATUM_1]. *)
Lemma C2_single_date_entry_fails :
  ~ single_date_redaction (_anonymize_locally latin1 consultation_note).
Proof.
  intros (e & Hl & _).
  apply (f_equal (@length _)) in Hl. vm_compute in Hl. discriminate Hl.
Qed.

(* ================================================================== *)
(** * Claims about the validators *)

Section ValidatorFacts.

Variable U : ucd.

Lemma collect_issues_app (anonymized : pystr) (issues : list pystr) (pattern : regex) :
  collect_issues U anonymized issues pattern =
  issues ++ findall U pattern anonymized IGNORECASE.
Proof.
  unfold collect_issues.
  destruct (findall U pattern anonymized IGNORECASE); [now rewrite app_nil_r | reflexivity].
Qed.

Lemma collect_issues_fold (anonymized : pystr) (ps : list regex) :
  forall issues,
    fold_left (collect_issues U anonymized) ps issues =
    issues ++ flat_map (fun p => findall U p anonymized IGNORECASE) ps.
Proof.
  induction ps as [|p ps IH]; intro issues; simpl.
  - now rewrite app_nil_r.
  - now rewrite IH, collect_issues_app, app_assoc.
Qed.

Lemma potential_issues_flat (original anonymized : pystr) :
  potential_issues (AnonymizationService.validate_anonymization U original anonymized) =
  flat_map (fun p => findall U p anonymized IGNORECASE) suspicious_patterns.
Proof.
  unfold AnonymizationService.validate_anonymization.
  cbn [potential_issues]. now rewrite collect_issues_fold.
Qed.

Lemma reduced_score (original anonymized : pystr) :
  anonymization_score (AnonymizationService.validate_anonymization U original anonymized) =
  Z.max 0 (100 - 10 * Z.of_nat (length (potential_issues
    (AnonymizationService.validate_anonymization U original anonymized)))).
Proof.
  unfold AnonymizationService.validate_anonymization.
  cbn [potential_issues anonymization_score]. f_equal. lia.
Qed.

Lemma check_pattern_fold (text : pystr) (ps : dict regex) :
  forall found score,
    fold_left (GDPRCompliance.check_pattern U text) ps (found, score) =
    (found ++ flat_map (finding_of U text) ps,
     (score - 15 * Z.of_nat (length
        (flat_map (fun kv => findall U (snd kv) text GDPRCompliance.IGNORECASE) ps)))%Z).
Proof.
  induction ps as [|[name p] ps IH]; intros found score; cbn [fold_left flat_map].
  - rewrite app_nil_r. cbn [length]. f_equal. lia.
  - unfold GDPRCompliance.check_pattern at 2. unfold finding_of at 1. cbn [fst snd].
    destruct (findall U p text GDPRCompliance.IGNORECASE) as [|m ms] eqn:E.
    + rewrite IH. reflexivity.
    + rewrite IH. rewrite <- app_assoc. f_equal.
      rewrite length_app. rewrite Nat2Z.inj_add. lia.
Qed.

Lemma full_report (utcnow : datetime) (text : pystr) :
  GDPRCompliance.validate_anonymization U utcnow text =
  {| GDPRCompliance.is_anonymized :=
       length (flat_map (finding_of U text) GDPRCompliance.SENSITIVE_PATTERNS) =? 0;
     GDPRCompliance.confidence_score :=
       Z.max 0 (100 - 15 * Z.of_nat (length (all_matches U text)));
     GDPRCompliance.issues :=
       flat_map (finding_of U text) GDPRCompliance.SENSITIVE_PATTERNS;
     GDPRCompliance.validation_timestamp := isoformat utcnow |}.
Proof.
  unfold GDPRCompliance.validate_anonymization. rewrite check_pattern_fold.
  reflexivity.
Qed.

Lemma finding_matches (text : pystr) (ps : dict regex) :
  flat_map GDPRCompliance.matches (flat_map (finding_of U text) ps) =
  flat_map (fun kv => findall U (snd kv) text GDPRCompliance.IGNORECASE) ps.
Proof.
  induction ps as [|kv ps IH]; simpl; [reflexivity|].
  rewrite flat_map_app, IH. f_equal.
  unfold finding_of.
  destruct (findall U (snd kv) text GDPRCompliance.IGNORECASE); simpl;
    [reflexivity | now rewrite app_nil_r].
Qed.

End ValidatorFacts.

Lemma pystr_eqb_eq (a b : pystr) : pystr_eqb a b = true <-> a = b.
Proof.
  unfold pystr_eqb. destruct (pystr_eq_dec a b); split; congruence.
Qed.

Lemma severity_high (name : pystr) :
  In name high_severity_categories -> GDPRCompliance.severity_of name = u "high".
Proof.
  intros [<- | [<- | [<- | []]]]; vm_compute; reflexivity.
Qed.

Lemma severity_medium (name : pystr) :
  ~ In name high_severity_categories -> GDPRCompliance.severity_of name = u "medium".
Proof.
  intro Hnot. unfold GDPRCompliance.severity_of.
  destruct (existsb _ _) eqn:E; [|reflexivity].
  apply existsb_exists in E. destruct E as (x & Hx & Heq).
  apply pystr_eqb_eq in Heq. subst x. contradiction.
Qed.

(** Inclusion with multiplicity bounds the number of reported matches. *)
Lemma included_length (a : list pystr) :
  forall b, included_with_multiplicity a b -> length a <= length b.
Proof.
  induction a as [|x a IH]; intros b H; simpl; [lia|].
  assert (Hin : In x b).
  { apply (count_occ_In pystr_eq_dec). specialize (H x).
    rewrite count_occ_cons_eq in H by reflexivity. lia. }
  apply in_split in Hin. destruct Hin as (b1 & b2 & ->).
  rewrite length_app. simpl.
  assert (Hrec : length a <= length (b1 ++ b2)).
  { apply IH. intro y. specialize (H y).
    rewrite count_occ_app in *. simpl in H.
    destruct (pystr_eq_dec x y); lia. }
  rewrite length_app in Hrec. lia.
Qed.

(** Under IGNORECASE the names pattern also reports a pair of lowercase
    words, as in the anonymized text of the repository's
    [test_anonymization_validation]. *)
Remark lowercase_word_pair_is_reported :
  AnonymizationService.validate_anonymization latin1
    (u "Patient Max Mustermann, wohnhaft in der Hauptstraße 45, 10115 Berlin")
    (u "Patient [NAME_1], wohnhaft in [ADRESSE_1]") =
  {| is_valid := false;
     potential_issues := [u "wohnhaft in"];
     anonymization_score := 90 |}.
Proof. vm_compute. reflexivity. Qed.

(** C5.  The reduced validator looks only at the candidate text, and
    only with three patterns: the first names rule, the postal-code
    addresses rule and the emails rule.  Every matched literal goes
    into one flat list, [is_valid] holds exactly when that list is
    empty, and the score is [max(0, 100 - 10 * len(issues))]. *)
Theorem C5_reduced_validator_report (U : ucd) (original anonymized : pystr) :
  potential_issues (AnonymizationService.validate_anonymization U original anonymized) =
    findall U names_first_last anonymized IGNORECASE ++
    findall U addresses_postal anonymized IGNORECASE ++
    findall U emails_address anonymized IGNORECASE /\
  (is_valid (AnonymizationService.validate_anonymization U original anonymized) = true <->
   potential_issues (AnonymizationService.validate_anonymization U original anonymized) = []) /\
  anonymization_score (AnonymizationService.validate_anonymization U original anonymized) =
    Z.max 0 (100 - 10 * Z.of_nat (length (potential_issues
      (AnonymizationService.validate_anonymization U original anonymized)))) /\
  nth_error rules 0 = Some (u "names", names_first_last) /\
  nth_error rules 4 = Some (u "addresses", addresses_postal) /\
  nth_error rules 7 = Some (u "emails", emails_address).
Proof.
  split; [|split; [|split]].
  - rewrite potential_issues_flat. unfold suspicious_patterns.
    cbn [flat_map]. now rewrite app_nil_r.
  - unfold AnonymizationService.validate_anonymization.
    cbn [is_valid potential_issues].
    rewrite Nat.eqb_eq. apply length_zero_iff_nil.
  - apply reduced_score.
  - repeat split; vm_compute; reflexivity.
Qed.

(** C6.  The full validator runs the seven category patterns against
    the text and reports one finding for each category that matched,
    with the category name, the matched literals and the severity:
    'high' for german_names, addresses and phone_numbers, 'medium'
    otherwise.  Its score is [max(0, 100 - 15 * total matches)].  For
    the contact line it reports three findings, a name, a phone number
    and an email address, and the score 55. *)
Theorem C6_full_validator_report (U : ucd) (utcnow : datetime) (text : pystr) :
  dict_keys GDPRCompliance.SENSITIVE_PATTERNS =
    [u "german_names"; u "addresses"; u "phone_numbers"; u "email_addresses";
     u "german_ids"; u "insurance_numbers"; u "dates"] /\
  GDPRCompliance.issues (GDPRCompliance.validate_anonymization U utcnow text) =
    flat_map (finding_of U text) GDPRCompliance.SENSITIVE_PATTERNS /\
  GDPRCompliance.confidence_score (GDPRCompliance.validate_anonymization U utcnow text) =
    Z.max 0 (100 - 15 * Z.of_nat (length (all_matches U text))) /\
  (forall name, In name high_severity_categories ->
                GDPRCompliance.severity_of name = u "high") /\
  (forall name, ~ In name high_severity_categories ->
                GDPRCompliance.severity_of name = u "medium") /\
  GDPRCompliance.issues (GDPRCompliance.validate_anonymization latin1 utcnow contact_line) =
    [ {| GDPRCompliance.issue_type := u "german_names";
         GDPRCompliance.matches := [u "Max Mustermann"];
         GDPRCompliance.severity := u "high" |};
      {| GDPRCompliance.issue_type := u "phone_numbers";
         GDPRCompliance.matches := [u "030-12345678"];
         GDPRCompliance.severity := u "high" |};
      {| GDPRCompliance.issue_type := u "email_addresses";
         GDPRCompliance.matches := [u "max@example.com"];
         GDPRCompliance.severity := u "medium" |} ] /\
  GDPRCompliance.confidence_score
    (GDPRCompliance.validate_anonymization latin1 utcnow contact_line) = 55%Z.
Proof.
  rewrite !full_report.
  cbn [GDPRCompliance.issues GDPRCompliance.confidence_score].
  split; [reflexivity|]. split; [reflexivity|]. split; [reflexivity|].
  split; [exact severity_high|]. split; [exact severity_medium|].
  split; vm_compute; reflexivity.
Qed.

(** C7.  For either validator, if the matches found in a text B
    contain the matches found in a text A, a match being one detected
    occurrence, so that every literal reported for A is reported for B
    at least as many times, then the score of B is at most the score of
    A.  A strict superset of the matches of A is such a containment, so
    the bound holds for it in particular. *)
Theorem C7_score_monotone_in_reported_matches
        (U : ucd) (utcnow : datetime) (original_a original_b a b : pystr) :
  (included_with_multiplicity (leaked_reduced U a) (leaked_reduced U b) ->
   (anonymization_score (AnonymizationService.validate_anonymization U original_b b) <=
    anonymization_score (AnonymizationService.validate_anonymization U original_a a))%Z) /\
  (included_with_multiplicity (leaked_full U utcnow a) (leaked_full U utcnow b) ->
   (GDPRCompliance.confidence_score (GDPRCompliance.validate_anonymization U utcnow b) <=
    GDPRCompliance.confidence_score (GDPRCompliance.validate_anonymization U utcnow a))%Z).
Proof.
  split; intro H; apply included_length in H.
  - unfold leaked_reduced in H. rewrite !potential_issues_flat in H.
    rewrite !reduced_score, !potential_issues_flat. lia.
  - unfold leaked_full in H. rewrite !full_report in H.
    cbn [GDPRCompliance.issues] in H. rewrite !finding_matches in H.
    rewrite !full_report. cbn [GDPRCompliance.confidence_score].
    unfold all_matches. lia.
Qed.

Lemma C7_score_monotone_witness :
  (included_with_multiplicity (leaked_reduced latin1 one_name)
                              (leaked_reduced latin1 two_names) /\
   (anonymization_score (AnonymizationService.validate_anonymization latin1 [] two_names) <=
    anonymization_score (AnonymizationService.validate_anonymization latin1 [] one_name))%Z) /\
  (included_with_multiplicity (leaked_full latin1 new_year_2024 one_name)
                              (leaked_full latin1 new_year_2024 two_names) /\
   (GDPRCompliance.confidence_score
      (GDPRCompliance.validate_anonymization latin1 new_year_2024 two_names) <=
    GDPRCompliance.confidence_score
      (GDPRCompliance.validate_anonymization latin1 new_year_2024 one_name))%Z).
Proof.
  assert (Hr : included_with_multiplicity (leaked_reduced latin1 one_name)
                                          (leaked_reduced latin1 two_names)).
  { intro x.
    let v := eval vm_compute in (leaked_reduced latin1 one_name) in
    change (leaked_reduced latin1 one_name) with v.
    let v := eval vm_compute in (leaked_reduced latin1 two_names) in
    change (leaked_reduced latin1 two_names) with v.
    cbn [count_occ].
    destruct (pystr_eq_dec _ x); destruct (pystr_eq_dec _ x); lia. }
  assert (Hf : included_with_multiplicity (leaked_full latin1 new_year_2024 one_name)
                                          (leaked_full latin1 new_year_2024 two_names)).
  { intro x.
    let v := eval vm_compute in (leaked_full latin1 new_year_2024 one_name) in
    change (leaked_full latin1 new_year_2024 one_name) with v.
    let v := eval vm_compute in (leaked_full latin1 new_year_2024 two_names) in
    change (leaked_full latin1 new_year_2024 two_names) with v.
    cbn [count_occ].
    destruct (pystr_eq_dec _ x); destruct (pystr_eq_dec _ x); lia. }
  split; (split; [assumption|]).
  - exact (proj1 (C7_score_monotone_in_reported_matches
                    latin1 new_year_2024 [] [] one_name two_names) Hr).
  - exact (proj2 (C7_score_monotone_in_reported_matches
                    latin1 new_year_2024 [] [] one_name two_names) Hf).
Defined.

(* ================================================================== *)
(** * Claims about the retention and rights helpers *)

Lemma pystr_eqb_sym (a b : pystr) : pystr_eqb a b = pystr_eqb b a.
Proof.
  unfold pystr_eqb. destruct (pystr_eq_dec a b), (pystr_eq_dec b a); congruence.
Qed.

Lemma dict_get_none (V : Type) (d : dict V) (k : pystr) :
  ~ In k (dict_keys d) -> dict_get d k = None.
Proof.
  induction d as [|[k' v] d IH]; simpl; intro H; [reflexivity|].
  destruct (pystr_eqb k' k) eqn:E.
  - apply pystr_eqb_eq in E. tauto.
  - apply IH. tauto.
Qed.

Lemma dict_get_some (V : Type) (d : dict V) (k : pystr) :
  In k (dict_keys d) -> exists v, dict_get d k = Some v.
Proof.
  induction d as [|[k' v] d IH]; simpl; intro H; [contradiction|].
  destruct (pystr_eqb k' k) eqn:E; [now exists v|].
  destruct H as [H | H]; [|now apply IH].
  apply pystr_eqb_eq in H. congruence.
Qed.

(** The lookup with its default is the table of the specification. *)
Lemma retention_days_fixed (data_type : pystr) :
  dict_get_default GDPRCompliance.RETENTION_PERIODS data_type 2555%Z =
  fixed_days data_type.
Proof.
  unfold dict_get_default, GDPRCompliance.RETENTION_PERIODS, fixed_days.
  cbn [dict_get].
  repeat rewrite (pystr_eqb_sym _ data_type).
  repeat destruct (pystr_eqb data_type _); reflexivity.
Qed.

Lemma fixed_days_positive (data_type : pystr) : (0 < fixed_days data_type)%Z.
Proof.
  unfold fixed_days. repeat destruct (pystr_eqb data_type _); lia.
Qed.

(** C8 (as amended).  For every creation date d and data type such
    that d plus the retention period is not past 9999-12-31, the last
    day a datetime can hold, the helper returns d moved forward by the
    number of days of the table (medical_records 2555, audit_logs
    2190, ai_interactions 1095, consent_records 2555, anonymized_data
    3650); a data type that is not in the table counts as 2555 days and
    the lookup raises nothing.  Without a creation date the clock
    reading takes its place. *)
Theorem C8_retention_date_within_range
        (utcnow : datetime) (data_type : pystr) (d : datetime) :
  valid_datetime d ->
  (toordinal d + fixed_days data_type <= MAXORDINAL)%Z ->
  GDPRCompliance.calculate_retention_date utcnow data_type (Some d) =
    Ok (days_later d (fixed_days data_type)) /\
  GDPRCompliance.calculate_retention_date d data_type None =
    Ok (days_later d (fixed_days data_type)) /\
  (~ In data_type (dict_keys GDPRCompliance.RETENTION_PERIODS) ->
   fixed_days data_type = 2555%Z).
Proof.
  intros Hvalid Hrange.
  assert (Hadd : add_days d (fixed_days data_type) = Ok (days_later d (fixed_days data_type))).
  { unfold add_days, days_later.
    pose proof (fixed_days_positive data_type) as Hpos.
    destruct Hvalid as [[Hlo _] _].
    replace ((0 <? toordinal d + fixed_days data_type)%Z) with true
      by (symmetry; apply Z.ltb_lt; lia).
    replace ((toordinal d + fixed_days data_type <=? MAXORDINAL)%Z) with true
      by (symmetry; apply Z.leb_le; lia).
    reflexivity. }
  unfold GDPRCompliance.calculate_retention_date.
  rewrite retention_days_fixed. repeat split; try exact Hadd.
  intro Hnot. rewrite <- retention_days_fixed.
  unfold dict_get_default. now rewrite dict_get_none.
Qed.

Lemma C8_retention_date_witness :
  valid_datetime new_year_2024 /\
  (toordinal new_year_2024 + fixed_days (u "medical_records") <= MAXORDINAL)%Z /\
  GDPRCompliance.calculate_retention_date new_year_2024 (u "medical_records")
    (Some new_year_2024) = Ok (days_later new_year_2024 2555).
Proof.
  assert (Hv : valid_datetime new_year_2024).
  { unfold valid_datetime, new_year_2024, MAXORDINAL. simpl. lia. }
  assert (Hr : (toordinal new_year_2024 + fixed_days (u "medical_records") <= MAXORDINAL)%Z).
  { vm_compute. discriminate. }
  split; [exact Hv|]. split; [exact Hr|].
  exact (proj1 (C8_retention_date_within_range new_year_2024 (u "medical_records") Hv Hr)).
Defined.

(** C8, as the specification words it, fails: a medical record created
    on 9999-12-31 has no retention date; the addition raises
    OverflowError. *)
Lemma C8_last_day_raises :
  valid_datetime last_day /\
  GDPRCompliance.calculate_retention_date new_year_2024 (u "medical_records")
    (Some last_day) = Raise OverflowError.
Proof.
  split.
  - unfold valid_datetime, last_day, MAXORDINAL. simpl. lia.
  - vm_compute. reflexivity.
Qed.

Lemma encodable_char_range (c : N) :
  encodable_char c = true <-> (c < 55296 \/ (57343 < c /\ c < 1114112))%N.
Proof.
  unfold encodable_char.
  rewrite orb_true_iff, andb_true_iff, !N.ltb_lt. reflexivity.
Qed.

Lemma encodable_char_encodes (c : N) :
  encodable_char c = true -> exists bs, utf8_encode_char c = Some bs.
Proof.
  rewrite encodable_char_range. intro H. unfold utf8_encode_char.
  destruct (N.ltb_spec c 128); [eexists; reflexivity|].
  destruct (N.ltb_spec c 2048); [eexists; reflexivity|].
  destruct (N.ltb_spec c 65536).
  - destruct (N.leb_spec 55296 c); destruct (N.leb_spec c 57343); simpl;
      try (eexists; reflexivity).
    exfalso. lia.
  - destruct (N.ltb_spec c 1114112); [eexists; reflexivity|].
    exfalso. lia.
Qed.

Lemma encodable_encodes (s : pystr) :
  encodable s -> exists bs, encode s = Ok bs.
Proof.
  unfold encodable. induction s as [|c s IH]; simpl; intro H.
  - now exists [].
  - apply andb_true_iff in H. destruct H as [Hc Hs].
    destruct (encodable_char_encodes c Hc) as (bs & ->).
    destruct (IH Hs) as (rest & ->). simpl. eexists. reflexivity.
Qed.

Lemma encodable_app (a b : pystr) :
  encodable a -> encodable b -> encodable (a ++ b).
Proof.
  unfold encodable. intros Ha Hb. rewrite forallb_app, Ha, Hb. reflexivity.
Qed.

Lemma digit_encodable (d : nat) : d < 10 -> encodable_char (digit_of d) = true.
Proof.
  intro H. unfold encodable_char, digit_of.
  apply orb_true_iff. left. apply N.ltb_lt. lia.
Qed.

Lemma digits_encodable (fuel : nat) :
  forall n acc, encodable acc -> encodable (digits_fuel fuel n acc).
Proof.
  induction fuel as [|fuel IH]; intros n acc Hacc; [assumption|].
  cbn [digits_fuel].
  assert (Hd : encodable (digit_of (n mod 10) :: acc)).
  { unfold encodable. cbn [forallb]. rewrite digit_encodable.
    - exact Hacc.
    - apply Nat.mod_upper_bound. lia. }
  destruct (n / 10); [assumption | now apply IH].
Qed.

Lemma zero_padded_encodable (width : nat) (n : Z) : encodable (zero_padded width n).
Proof.
  unfold zero_padded. apply encodable_app.
  - unfold encodable. induction (width - _); simpl; [reflexivity | assumption].
  - apply digits_encodable. reflexivity.
Qed.

Lemma isoformat_encodable (d : datetime) : encodable (isoformat d).
Proof.
  unfold isoformat. destruct (ord2ymd (toordinal d)) as [[y m] dd].
  repeat (apply encodable_app; [try apply zero_padded_encodable; try reflexivity|]).
  destruct (microsecond d =? 0)%Z; [reflexivity|].
  apply encodable_app; [reflexivity | apply zero_padded_encodable].
Qed.

Lemma request_type_encodable (rtype : pystr) :
  In rtype request_types -> encodable rtype.
Proof.
  intro H. repeat (destruct H as [<- | H]; [vm_compute; reflexivity|]).
  contradiction.
Qed.

(** C9 (as amended).  A request type outside the seven-element
    enumeration never raises: the helper returns the structured value
    with [valid = False], an error message and the list of valid types.
    A request type inside the enumeration returns [valid = True] with
    the article of that type as legal basis, "Article 17 - Right to
    erasure" for "erasure", provided the patient id can be encoded as
    UTF-8 (it holds no surrogate code point) and the clock is at least
    30 days before the last day a datetime can hold. *)
Theorem C9_rights_request_report
        (sha256_hexdigest : list N -> pystr) (clock : nat -> datetime)
        (rtype pid : pystr) :
  (~ In rtype request_types ->
   GDPRCompliance.validate_data_subject_rights sha256_hexdigest clock rtype pid =
     Ok (GDPRCompliance.Rejected
           {| GDPRCompliance.rejected_valid := false;
              GDPRCompliance.error := u "Invalid request type: " ++ rtype;
              GDPRCompliance.valid_types := request_types |})) /\
  (In rtype request_types ->
   encodable pid ->
   (0 < toordinal (clock 1%nat) + 30 <= MAXORDINAL)%Z ->
   exists r,
     GDPRCompliance.validate_data_subject_rights sha256_hexdigest clock rtype pid =
       Ok (GDPRCompliance.Accepted r) /\
     GDPRCompliance.valid r = true /\
     GDPRCompliance.request_type r = rtype /\
     GDPRCompliance.patient_id r = pid /\
     dict_get GDPRCompliance.valid_requests rtype = Some (GDPRCompliance.legal_basis r) /\
     (rtype = u "erasure" ->
      GDPRCompliance.legal_basis r = u "Article 17 - Right to erasure")).
Proof.
  split.
  - intro Hnot. unfold GDPRCompliance.validate_data_subject_rights.
    rewrite dict_get_none by exact Hnot. reflexivity.
  - intros Hin Hpid Hclock.
    unfold GDPRCompliance.validate_data_subject_rights.
    destruct (dict_get_some GDPRCompliance.valid_requests rtype Hin) as (basis & Hbasis).
    rewrite Hbasis.
    assert (Henc : encodable (rtype ++ u "-" ++ pid ++ u "-" ++ isoformat (clock 0))).
    { apply encodable_app; [now apply request_type_encodable|].
      apply encodable_app; [reflexivity|].
      apply encodable_app; [assumption|].
      apply encodable_app; [reflexivity | apply isoformat_encodable]. }
    destruct (encodable_encodes Henc) as (data & ->).
    unfold add_days.
    replace ((0 <? toordinal (clock 1%nat) + 30)%Z) with true
      by (symmetry; apply Z.ltb_lt; lia).
    replace ((toordinal (clock 1%nat) + 30 <=? MAXORDINAL)%Z) with true
      by (symmetry; apply Z.leb_le; lia).
    cbn [bind andb]. eexists. split; [reflexivity|].
    cbn [GDPRCompliance.valid GDPRCompliance.request_type GDPRCompliance.patient_id
         GDPRCompliance.legal_basis].
    repeat split. intros ->. vm_compute in Hbasis.
    injection Hbasis as <-. vm_compute. reflexivity.
Qed.

Lemma C9_rights_request_witness :
  (~ In (u "bogus") request_types /\
   GDPRCompliance.validate_data_subject_rights
     (fun _ => []) (fun _ => new_year_2024) (u "bogus") (u "P-1") =
     Ok (GDPRCompliance.Rejected
           {| GDPRCompliance.rejected_valid := false;
              GDPRCompliance.error := u "Invalid request type: bogus";
              GDPRCompliance.valid_types := request_types |})) /\
  (In (u "erasure") request_types /\
   encodable (u "P-1") /\
   (0 < toordinal new_year_2024 + 30 <= MAXORDINAL)%Z /\
   exists r,
     GDPRCompliance.validate_data_subject_rights
       (fun _ => []) (fun _ => new_year_2024) (u "erasure") (u "P-1") =
       Ok (GDPRCompliance.Accepted r) /\
     GDPRCompliance.valid r = true /\
     GDPRCompliance.legal_basis r = u "Article 17 - Right to erasure").
Proof.
  assert (Hbogus : ~ In (u "bogus") request_types).
  { intro H. repeat (destruct H as [H | H]; [vm_compute in H; discriminate H|]).
    contradiction. }
  assert (Hin : In (u "erasure") request_types).
  { right. right. left. reflexivity. }
  assert (Hpid : encodable (u "P-1")) by reflexivity.
  assert (Hclock : (0 < toordinal new_year_2024 + 30 <= MAXORDINAL)%Z).
  { split; vm_compute; [reflexivity | discriminate]. }
  split.
  - split; [exact Hbogus|].
    exact (proj1 (C9_rights_request_report (fun _ => []) (fun _ => new_year_2024)
                    (u "bogus") (u "P-1")) Hbogus).
  - split; [exact Hin|]. split; [exact Hpid|]. split; [exact Hclock|].
    destruct (proj2 (C9_rights_request_report (fun _ => []) (fun _ => new_year_2024)
                       (u "erasure") (u "P-1")) Hin Hpid Hclock)
      as (r & Hr & Hvalid & _ & _ & _ & Hbasis).
    exists r. split; [exact Hr|]. split; [exact Hvalid|]. exact (Hbasis eq_refl).
Defined.

(** C9, as the specification words it, fails: an erasure request for a
    patient id that holds a lone surrogate code point raises
    UnicodeEncodeError when the request id is derived. *)
Lemma C9_surrogate_patient_id_raises :
  GDPRCompliance.validate_data_subject_rights
    (fun _ => []) (fun _ => new_year_2024) (u "erasure") [55296%N] =
  Raise UnicodeEncodeError.
Proof. vm_compute. reflexivity. Qed.

(* ================================================================== *)
(** * Further properties of the matcher and the validators *)

Import Extra.

Section SpanFacts.

Variable U : ucd.
Variable ignorecase : bool.

Lemma run_length_le (p : N -> bool) (s : pystr) :
  forall cap, run_length p s cap <= length s.
Proof.
  induction s as [|c s IH]; intros [|cap]; simpl; try lia.
  destruct (p c); [|lia]. specialize (IH cap). lia.
Qed.

(** A match that starts inside the text ends inside the text. *)
Lemma match_at_within (r : regex) (text : pystr) :
  forall i e, i <= length text -> In e (match_at U ignorecase r text i) ->
              e <= length text.
Proof.
  induction r as [ | cs | lo hi cs | r IH | r1 IH1 r2 IH2 | r1 IH1 r2 IH2 | ];
    intros i e Hi H; simpl in H.
  - destruct H as [<- | []]. assumption.
  - destruct (nth_error text i) as [c|] eqn:E; [|contradiction].
    destruct (in_charset U ignorecase cs c); [|contradiction].
    destruct H as [<- | []].
    assert (i < length text) by (apply nth_error_Some; congruence). lia.
  - destruct (_ <? lo); [contradiction|].
    apply in_map_iff in H. destruct H as (j & <- & Hj).
    apply in_rev, in_seq in Hj.
    match type of Hj with
    | context [run_length ?p ?s ?c] => pose proof (run_length_le p s c) as Hrun
    end.
    rewrite length_skipn in Hrun. destruct lo; lia.
  - apply in_app_or in H. destruct H as [H | [<- | []]].
    + now apply (IH i).
    + assumption.
  - apply in_flat_map_inv in H. destruct H as (m & Hm & He).
    apply (IH2 m); [|assumption]. now apply (IH1 i).
  - apply in_app_or in H. destruct H as [H | H]; [now apply (IH1 i) | now apply (IH2 i)].
  - destruct (at_boundary U text i); [|contradiction].
    destruct H as [<- | []]. assumption.
Qed.

Lemma first_end_in (r : regex) (text : pystr) (s : nat) (b : bool) (e : nat) :
  first_end U ignorecase r text s b = Some e ->
  In e (match_at U ignorecase r text s).
Proof.
  unfold first_end.
  set (l := match_at U ignorecase r text s). clearbody l.
  induction l as [|x l IH]; simpl; [discriminate|].
  destruct (negb _); simpl.
  - intro H. injection H as ->. now left.
  - intro H. right. now apply IH.
Qed.

Lemma scan_within (r : regex) (text : pystr) :
  0 < min_len r ->
  forall starts pos,
    Forall (fun s => s <= length text) starts ->
    Forall (span_within text) (scan U ignorecase r text starts pos).
Proof.
  intros Hpos starts. induction starts as [|a starts IH]; intros pos Hstarts; simpl.
  - constructor.
  - inversion Hstarts as [|x l Ha Hrest]; subst.
    destruct (a <? pos); [now apply IH|].
    destruct (first_end U ignorecase r text a false) as [e|] eqn:Hfe; [|now apply IH].
    pose proof (first_end_min_len _ _ _ _ _ _ Hfe) as Hlen.
    pose proof (match_at_within _ _ _ Ha (first_end_in _ _ _ _ Hfe)) as Hend.
    destruct (Nat.eqb_spec e a) as [-> | Hne]; [lia|].
    constructor; [|now apply IH].
    split; simpl; lia.
Qed.

(** Every span [finditer] reports for a rule that cannot match the
    empty string is non-empty and inside the text. *)
Lemma finditer_within (r : regex) (text : pystr) :
  0 < min_len r -> Forall (span_within text) (finditer U r text ignorecase).
Proof.
  intro Hpos. unfold finditer. apply scan_within; [assumption|].
  apply Forall_forall. intros s Hs. apply in_seq in Hs. lia.
Qed.

Lemma starts_with_firstn (n : nat) :
  forall s : pystr, starts_with (firstn n s) s = true.
Proof.
  induction n as [|n IH]; intros [|c s]; simpl; try reflexivity.
  now rewrite N.eqb_refl, IH.
Qed.

Lemma contains_firstn_skipn (n i : nat) :
  forall text : pystr, contains text (firstn n (skipn i text)) = true.
Proof.
  induction i as [|i IH]; intros text.
  - simpl skipn. destruct text; simpl.
    + destruct n; reflexivity.
    + now rewrite starts_with_firstn.
  - destruct text as [|c text].
    + simpl. destruct n; reflexivity.
    + simpl skipn. simpl contains. rewrite IH. apply orb_true_r.
Qed.

Lemma contains_slice (text : pystr) (i j : nat) :
  contains text (slice text i j) = true.
Proof. unfold slice. apply contains_firstn_skipn. Qed.

Lemma slice_length (text : pystr) (i j : nat) :
  j <= length text -> length (slice text i j) = j - i.
Proof.
  intro H. unfold slice. rewrite length_firstn, length_skipn. lia.
Qed.

(** What [findall] returns for such a rule are non-empty literals of
    the text. *)
Lemma findall_occur (r : regex) (text : pystr) :
  0 < min_len r ->
  Forall (occurs_nonempty text) (findall U r text ignorecase).
Proof.
  intro Hpos. unfold findall. apply Forall_forall. intros x Hx.
  apply in_map_iff in Hx. destruct Hx as ([s e] & <- & Hin).
  pose proof (@finditer_within r text Hpos) as Hall.
  rewrite Forall_forall in Hall. specialize (Hall _ Hin).
  destruct Hall as [Hlt Hle]. simpl in Hlt, Hle.
  unfold group. simpl fst. simpl snd. split.
  - intro Hnil. apply (f_equal (@length _)) in Hnil.
    rewrite slice_length in Hnil by assumption. simpl in Hnil. lia.
  - apply contains_slice.
Qed.

End SpanFacts.

Section ValidatorRanges.

Variable U : ucd.

Lemma suspicious_patterns_consume :
  Forall (fun p => 0 < min_len p) suspicious_patterns.
Proof. repeat constructor. Qed.

Lemma sensitive_patterns_consume :
  Forall (fun kv => 0 < min_len (snd kv)) GDPRCompliance.SENSITIVE_PATTERNS.
Proof.
  apply Forall_forall. intros kv Hin. apply Nat.ltb_lt.
  assert (H : forallb (fun kv => 0 <? min_len (snd kv))
                      GDPRCompliance.SENSITIVE_PATTERNS = true)
    by (vm_compute; reflexivity).
  rewrite forallb_forall in H. now apply H.
Qed.

(** X6.  The score of the reduced validator lies between 0 and 100 and
    is a multiple of 10; the text is valid exactly when the score is
    100, and the score is 0 exactly when ten or more literals are
    reported. *)
Theorem X6_reduced_score_range (original anonymized : pystr) :
  (0 <= anonymization_score
          (AnonymizationService.validate_anonymization U original anonymized) <= 100)%Z /\
  (exists k : Z,
     anonymization_score
       (AnonymizationService.validate_anonymization U original anonymized) = (10 * k)%Z) /\
  (is_valid (AnonymizationService.validate_anonymization U original anonymized) = true <->
   anonymization_score
     (AnonymizationService.validate_anonymization U original anonymized) = 100%Z) /\
  (anonymization_score
     (AnonymizationService.validate_anonymization U original anonymized) = 0%Z <->
   10 <= length (potential_issues
                   (AnonymizationService.validate_anonymization U original anonymized))).
Proof.
  rewrite reduced_score.
  unfold AnonymizationService.validate_anonymization. cbn [is_valid potential_issues].
  set (n := length _). clearbody n.
  split; [lia|]. split.
  - destruct (Z.max_spec 0 (100 - 10 * Z.of_nat n)) as [[_ ->] | [_ ->]].
    + exists (10 - Z.of_nat n)%Z. lia.
    + exists 0%Z. lia.
  - rewrite Nat.eqb_eq. split; lia.
Qed.

(** X7.  Every literal the reduced validator reports is a non-empty
    piece of the candidate text. *)
Theorem X7_reduced_issues_occur (original anonymized : pystr) :
  Forall (occurs_nonempty anonymized)
         (potential_issues
            (AnonymizationService.validate_anonymization U original anonymized)).
Proof.
  rewrite potential_issues_flat. apply Forall_forall. intros x Hx.
  apply in_flat_map_inv in Hx. destruct Hx as (p & Hp & Hx).
  pose proof suspicious_patterns_consume as Hall.
  rewrite Forall_forall in Hall.
  pose proof (@findall_occur U IGNORECASE p anonymized (Hall p Hp)) as Hocc.
  rewrite Forall_forall in Hocc. now apply Hocc.
Qed.

Lemma findings_nil (text : pystr) (ps : dict regex) :
  flat_map (finding_of U text) ps = [] <->
  flat_map (fun kv => findall U (snd kv) text GDPRCompliance.IGNORECASE) ps = [].
Proof.
  induction ps as [|kv ps IH]; simpl; [tauto|].
  unfold finding_of at 1.
  destruct (findall U (snd kv) text GDPRCompliance.IGNORECASE); simpl.
  - exact IH.
  - split; discriminate.
Qed.

Lemma finding_types (text : pystr) (ps : dict regex) :
  map GDPRCompliance.issue_type (flat_map (finding_of U text) ps) =
  map fst (filter (fun kv => match findall U (snd kv) text GDPRCompliance.IGNORECASE with
                             | [] => false
                             | _ :: _ => true
                             end) ps).
Proof.
  induction ps as [|kv ps IH]; simpl; [reflexivity|].
  rewrite map_app, IH. unfold finding_of.
  destruct (findall U (snd kv) text GDPRCompliance.IGNORECASE); reflexivity.
Qed.

Lemma kept_keys_distinct (K V : Type) (keep : K * V -> bool) (table : list (K * V)) :
  NoDup (map fst table) -> NoDup (map fst (filter keep table)).
Proof.
  intro Hkeys. induction table as [|kv table IH]; simpl; [constructor|].
  simpl in Hkeys. apply NoDup_cons_iff in Hkeys. destruct Hkeys as [Hfresh Hkeys].
  destruct (keep kv); simpl; [|now apply IH].
  apply NoDup_cons; [|now apply IH].
  intro Hin. apply Hfresh.
  apply in_map_iff in Hin. destruct Hin as (kv' & Hkey & Hin).
  apply filter_In in Hin. apply in_map_iff. exists kv'. tauto.
Qed.

Lemma sensitive_keys_distinct :
  NoDup (map fst GDPRCompliance.SENSITIVE_PATTERNS).
Proof.
  repeat (constructor;
          [ intro H; simpl in H;
            repeat (destruct H as [H | H]; [vm_compute in H; discriminate H|]);
            exact H | ]).
  constructor.
Qed.

(** X8.  The confidence score of the full validator lies between 0 and
    100; the text counts as anonymized exactly when the score is 100,
    and the score is 0 exactly when seven or more matches were found.
    The findings name the categories that matched, in dictionary order
    and each at most once, so there are at most seven, and every
    finding lists at least one match. *)
Theorem X8_full_report_shape (utcnow : datetime) (text : pystr) :
  (0 <= GDPRCompliance.confidence_score
          (GDPRCompliance.validate_anonymization U utcnow text) <= 100)%Z /\
  (GDPRCompliance.is_anonymized (GDPRCompliance.validate_anonymization U utcnow text) = true <->
   GDPRCompliance.confidence_score
     (GDPRCompliance.validate_anonymization U utcnow text) = 100%Z) /\
  (GDPRCompliance.confidence_score
     (GDPRCompliance.validate_anonymization U utcnow text) = 0%Z <->
   7 <= length (all_matches U text)) /\
  map GDPRCompliance.issue_type
      (GDPRCompliance.issues (GDPRCompliance.validate_anonymization U utcnow text)) =
    matched_categories U text /\
  NoDup (map GDPRCompliance.issue_type
             (GDPRCompliance.issues (GDPRCompliance.validate_anonymization U utcnow text))) /\
  length (GDPRCompliance.issues (GDPRCompliance.validate_anonymization U utcnow text)) <= 7 /\
  Forall (fun i => GDPRCompliance.matches i <> [])
         (GDPRCompliance.issues (GDPRCompliance.validate_anonymization U utcnow text)).
Proof.
  rewrite full_report.
  cbn [GDPRCompliance.confidence_score GDPRCompliance.is_anonymized GDPRCompliance.issues].
  split; [lia|]. split; [|split; [lia|]].
  - rewrite Nat.eqb_eq, length_zero_iff_nil, findings_nil.
    fold (all_matches U text). rewrite <- length_zero_iff_nil. lia.
  - rewrite finding_types. fold (matched_categories U text).
    split; [reflexivity|]. split; [|split].
    + unfold matched_categories. apply kept_keys_distinct, sensitive_keys_distinct.
    + rewrite <- (length_map GDPRCompliance.issue_type), finding_types, length_map.
      etransitivity; [apply filter_length_le|]. apply Nat.eq_le_incl. reflexivity.
    + apply Forall_forall. intros i Hi.
      apply in_flat_map_inv in Hi. destruct Hi as (kv & _ & Hi).
      unfold finding_of in Hi.
      destruct (findall U (snd kv) text GDPRCompliance.IGNORECASE) eqn:E; [contradiction|].
      destruct Hi as [<- | []]. simpl. discriminate.
Qed.

(** X9.  Every match the full validator lists under a finding is a
    non-empty piece of the text. *)
Theorem X9_full_matches_occur (utcnow : datetime) (text : pystr) :
  Forall (fun i => Forall (occurs_nonempty text) (GDPRCompliance.matches i))
         (GDPRCompliance.issues (GDPRCompliance.validate_anonymization U utcnow text)).
Proof.
  rewrite full_report. cbn [GDPRCompliance.issues].
  apply Forall_forall. intros i Hi.
  apply in_flat_map_inv in Hi. destruct Hi as (kv & Hkv & Hi).
  pose proof sensitive_patterns_consume as Hall.
  rewrite Forall_forall in Hall.
  pose proof (@findall_occur U GDPRCompliance.IGNORECASE (snd kv) text (Hall kv Hkv)) as Hocc.
  unfold finding_of in Hi.
  destruct (findall U (snd kv) text GDPRCompliance.IGNORECASE) eqn:E; [contradiction|].
  destruct Hi as [<- | []]. exact Hocc.
Qed.

End ValidatorRanges.

(* ================================================================== *)
(** * Further properties of the redactor *)

Lemma digits_value (fuel : nat) :
  forall n acc, n < fuel ->
    exists ds, digits_fuel fuel n acc = ds ++ acc /\ nat_of_digits ds = n.
Proof.
  induction fuel as [|fuel IH]; intros n acc Hn; [lia|].
  cbn [digits_fuel].
  assert (Hd : nat_of_digits [digit_of (n mod 10)] = n mod 10).
  { unfold nat_of_digits, digit_of. cbn [fold_left].
    replace (48 + N.of_nat (n mod 10) - 48)%N with (N.of_nat (n mod 10)) by lia.
    rewrite Nat2N.id. lia. }
  pose proof (Nat.div_mod_eq n 10) as Hdm.
  destruct (n / 10) as [|q] eqn:Hq.
  - exists [digit_of (n mod 10)]. split; [reflexivity|]. rewrite Hd. lia.
  - destruct (IH (S q) (digit_of (n mod 10) :: acc)) as (ds & Heq & Hval); [lia|].
    exists (ds ++ [digit_of (n mod 10)]). split.
    + rewrite Heq, <- app_assoc. reflexivity.
    + unfold nat_of_digits in *. rewrite fold_left_app, Hval.
      cbn [fold_left].
      unfold digit_of.
      replace (48 + N.of_nat (n mod 10) - 48)%N with (N.of_nat (n mod 10)) by lia.
      rewrite Nat2N.id. lia.
Qed.

(** [int(str(n)) = n]. *)
Lemma nat_of_digits_str (n : nat) : nat_of_digits (str_of_nat n) = n.
Proof.
  unfold str_of_nat.
  destruct (@digits_value (S n) n [] (Nat.lt_succ_diag_r n)) as (ds & Heq & Hval).
  rewrite Heq, app_nil_r. exact Hval.
Qed.

Lemma str_of_nat_inj (a b : nat) : str_of_nat a = str_of_nat b -> a = b.
Proof.
  intro H. apply (f_equal nat_of_digits) in H.
  now rewrite !nat_of_digits_str in H.
Qed.

Lemma placeholder_inj (tag : pystr) (a b : nat) :
  placeholder tag a = placeholder tag b -> a = b.
Proof.
  unfold placeholder. intro H.
  apply app_inv_head, app_inv_head, app_inv_head, app_inv_tail in H.
  now apply str_of_nat_inj.
Qed.

(** The placeholder of a pattern type is its label, or ANONYMIZED for
    a type that has none, around the index. *)
Lemma generate_replacement_placeholder (pattern_type : pystr) (index : nat) :
  _generate_replacement pattern_type index =
  placeholder (dict_get_default placeholder_tags pattern_type (u "ANONYMIZED")) index.
Proof.
  unfold _generate_replacement, dict_get_default, placeholder_tags.
  cbn [dict_get].
  repeat destruct (pystr_eqb _ pattern_type); reflexivity.
Qed.

(** X5.  For any pattern type, known or not, the placeholder determines
    the index: different indices never give the same placeholder. *)
Theorem X5_generate_replacement_injective (pattern_type : pystr) (a b : nat) :
  _generate_replacement pattern_type a = _generate_replacement pattern_type b -> a = b.
Proof.
  rewrite !generate_replacement_placeholder. apply placeholder_inj.
Qed.

Lemma X5_generate_replacement_injective_witness :
  _generate_replacement (u "unknown") 7 = _generate_replacement (u "unknown") 7 /\ 7 = 7.
Proof.
  assert (H : _generate_replacement (u "unknown") 7 = _generate_replacement (u "unknown") 7)
    by reflexivity.
  split; [exact H|].
  exact (@X5_generate_replacement_injective (u "unknown") 7 7 H).
Defined.

Section LedgerFacts.

Variable U : ucd.

(** A property of entries that every rule's new entries have survives
    the whole loop. *)
Lemma rules_forall (P : replacement_entry -> Prop) (rs : list (pystr * regex)) :
  (forall rule (st : redaction_state), In rule rs ->
     Forall P (entries_of (fst rule) (fst st) (length (snd st))
                          (finditer U (snd rule) (fst st) IGNORECASE))) ->
  forall st, Forall P (snd st) -> Forall P (snd (fold_left (on_rule U) rs st)).
Proof.
  induction rs as [|rule rs IH]; intros Hnew st Hst; simpl; [assumption|].
  apply IH.
  - intros rule' st' Hin. apply Hnew. now right.
  - rewrite on_rule_ledger. apply Forall_app. split; [assumption|].
    apply Hnew. now left.
Qed.

Lemma rule_types_in_catalog :
  Forall (fun rule => In (fst rule) (dict_keys patterns)) rules.
Proof.
  repeat (constructor; [simpl; tauto|]). constructor.
Qed.

Lemma ledger_types (text : pystr) :
  Forall (fun e => In (type e) (dict_keys patterns))
         (replacements (_anonymize_locally U text)).
Proof.
  rewrite replacements_of_loop. apply rules_forall; [|constructor].
  intros rule st Hin.
  pose proof rule_types_in_catalog as Hcat. rewrite Forall_forall in Hcat.
  specialize (Hcat rule Hin).
  pose proof (entries_of_type (fst rule) (fst st)
                (finditer U (snd rule) (fst st) IGNORECASE) (length (snd st))) as Hty.
  rewrite Forall_forall in *. intros e He. rewrite (Hty e He). exact Hcat.
Qed.

Lemma catalog_type_tag (pattern_type : pystr) :
  In pattern_type (dict_keys patterns) ->
  exists tag, dict_get placeholder_tags pattern_type = Some tag /\
              forall digits, starts_with (u "[ANONYMIZED_")
                                         (u "[" ++ tag ++ u "_" ++ digits ++ u "]") = false.
Proof.
  intro H. simpl in H.
  repeat (destruct H as [<- | H];
          [eexists; split; [vm_compute; reflexivity | intro digits; reflexivity]|]).
  contradiction.
Qed.

(** X1.  Every ledger entry has one of the seven pattern types of the
    catalog, and its placeholder is the label of that type around the
    entry's 1-based place in the ledger; the redactor never produces
    the [ANONYMIZED] placeholder that [_generate_replacement] keeps for
    other types. *)
Theorem X1_ledger_types_and_labels (text : pystr) (k : nat) (e : replacement_entry) :
  nth_error (replacements (_anonymize_locally U text)) k = Some e ->
  In (type e) (dict_keys patterns) /\
  (exists tag, dict_get placeholder_tags (type e) = Some tag /\
               replacement e = placeholder tag (S k)) /\
  starts_with (u "[ANONYMIZED_") (replacement e) = false.
Proof.
  intro Hk.
  pose proof (ledger_types text) as Hty. rewrite Forall_forall in Hty.
  specialize (Hty e (nth_error_In _ _ Hk)).
  pose proof (ledger_run_numbered U text) as Hnum. specialize (Hnum k e Hk).
  destruct (catalog_type_tag Hty) as (tag & Htag & Hpre).
  assert (Hrep : replacement e = placeholder tag (S k)).
  { rewrite Hnum, generate_replacement_placeholder.
    unfold dict_get_default. now rewrite Htag. }
  split; [assumption|]. split; [exists tag; split; assumption|].
  rewrite Hrep. apply Hpre.
Qed.

End LedgerFacts.

Lemma X1_ledger_types_and_labels_witness :
  nth_error (replacements (_anonymize_locally latin1 consultation_note)) 3 =
    Some {| original := u "15.12.2023"; replacement := u "[DATUM_4]";
            type := u "dates"; position := (9, 19) |} /\
  In (u "dates") (dict_keys patterns).
Proof.
  assert (H : nth_error (replacements (_anonymize_locally latin1 consultation_note)) 3 =
              Some {| original := u "15.12.2023"; replacement := u "[DATUM_4]";
                      type := u "dates"; position := (9, 19) |})
    by (vm_compute; reflexivity).
  split; [exact H|].
  exact (proj1 (@X1_ledger_types_and_labels latin1 consultation_note 3 _ H)).
Defined.

Section LedgerUniqueness.

Variable U : ucd.

Lemma entry_label (text : pystr) (k : nat) (e : replacement_entry) :
  nth_error (replacements (_anonymize_locally U text)) k = Some e ->
  exists tag, In tag (map snd placeholder_tags) /\
              replacement e = placeholder tag (S k).
Proof.
  intro Hk.
  pose proof (ledger_types U text) as Hty. rewrite Forall_forall in Hty.
  specialize (Hty e (nth_error_In _ _ Hk)).
  pose proof (ledger_run_numbered U text) as Hnum. specialize (Hnum k e Hk).
  rewrite Hnum, generate_replacement_placeholder.
  simpl in Hty.
  repeat (destruct Hty as [<- | Hty];
          [eexists; split; [|reflexivity]; simpl; tauto|]).
  contradiction.
Qed.

Lemma label_inj (t1 t2 : pystr) (a b : nat) :
  In t1 (map snd placeholder_tags) -> In t2 (map snd placeholder_tags) ->
  placeholder t1 a = placeholder t2 b -> a = b.
Proof.
  intros H1 H2 H. simpl in H1, H2.
  repeat (destruct H1 as [<- | H1]; [|]); try contradiction;
    repeat (destruct H2 as [<- | H2]; [|]); try contradiction;
    first [ exact (placeholder_inj H)
          | exfalso; apply (f_equal (fun l => nth 1 l 0%N)) in H;
            vm_compute in H; discriminate H ].
Qed.

(** X2.  Within one redaction run no two ledger entries receive the
    same placeholder. *)
Theorem X2_placeholders_distinct (text : pystr) (i j : nat) (ei ej : replacement_entry) :
  i <> j ->
  nth_error (replacements (_anonymize_locally U text)) i = Some ei ->
  nth_error (replacements (_anonymize_locally U text)) j = Some ej ->
  replacement ei <> replacement ej.
Proof.
  intros Hij Hi Hj Heq.
  destruct (entry_label _ _ Hi) as (ti & Hti & Hri).
  destruct (entry_label _ _ Hj) as (tj & Htj & Hrj).
  rewrite Hri, Hrj in Heq.
  apply (@label_inj ti tj (S i) (S j) Hti Htj) in Heq. lia.
Qed.

Lemma entries_of_spans (pattern_type scanned : pystr) (spans : list (nat * nat)) :
  Forall (span_within scanned) spans ->
  forall n,
    Forall (fun e => original e <> [] /\
                     fst (position e) < snd (position e) /\
                     length (original e) = snd (position e) - fst (position e))
           (entries_of pattern_type scanned n spans).
Proof.
  induction 1 as [|[s e] spans [Hlt Hle] _ IH]; intro n; simpl; constructor.
  - simpl in *. unfold group. simpl.
    assert (Hlen : length (slice scanned s e) = e - s) by now apply slice_length.
    repeat split; try assumption.
    intro Hnil. rewrite Hnil in Hlen. simpl in Hlen. lia.
  - apply IH.
Qed.

(** X3.  Every ledger entry records a non-empty literal, over a
    non-empty span, and the literal has exactly as many characters as
    the span is wide. *)
Theorem X3_ledger_literals_fill_their_spans (text : pystr) :
  Forall (fun e => original e <> [] /\
                   fst (position e) < snd (position e) /\
                   length (original e) = snd (position e) - fst (position e))
         (replacements (_anonymize_locally U text)).
Proof.
  rewrite replacements_of_loop. apply rules_forall; [|constructor].
  intros rule st Hin. apply entries_of_spans.
  apply finditer_within.
  pose proof catalog_rules_consume as Hall. rewrite Forall_forall in Hall.
  now apply Hall.
Qed.

Lemma suspicious_in_catalog :
  Forall (fun p => In p (map snd rules)) suspicious_patterns.
Proof. repeat (constructor; [simpl; tauto|]). constructor. Qed.

Lemma sensitive_in_catalog :
  Forall (fun kv => In (snd kv) (map snd rules)) GDPRCompliance.SENSITIVE_PATTERNS.
Proof. repeat (constructor; [simpl; tauto|]). constructor. Qed.

Lemma silent_rule_finds_nothing (text : pystr) (p : regex) :
  Forall (fun rule => finditer U (snd rule) text IGNORECASE = []) rules ->
  In p (map snd rules) ->
  findall U p text IGNORECASE = [].
Proof.
  intros Hall Hin. apply in_map_iff in Hin. destruct Hin as (rule & <- & Hrule).
  rewrite Forall_forall in Hall. unfold findall. now rewrite (Hall rule Hrule).
Qed.

Lemma flat_map_nil (A B : Type) (f : A -> list B) (l : list A) :
  (forall x, In x l -> f x = []) -> flat_map f l = [].
Proof.
  induction l as [|a l IH]; simpl; intro H; [reflexivity|].
  rewrite (H a (or_introl eq_refl)), IH; [reflexivity|].
  intros x Hx. apply H. now right.
Qed.

Lemma silent_from (rs : list (pystr * regex)) (text : pystr)
      (ledger : list replacement_entry) :
  snd (fold_left (on_rule U) rs (text, ledger)) = [] ->
  Forall (fun rule => finditer U (snd rule) text IGNORECASE = []) rs.
Proof.
  intro H. apply rules_silent in H. destruct H as [_ H]. exact H.
Qed.

Lemma silent_reduced (text : pystr) :
  Forall (fun rule => finditer U (snd rule) text IGNORECASE = []) rules ->
  flat_map (fun p => findall U p text IGNORECASE) suspicious_patterns = [].
Proof.
  intro Hall. apply flat_map_nil. intros p Hp.
  apply silent_rule_finds_nothing; [assumption|].
  pose proof suspicious_in_catalog as H. rewrite Forall_forall in H. now apply H.
Qed.

Lemma silent_full (text : pystr) :
  Forall (fun rule => finditer U (snd rule) text IGNORECASE = []) rules ->
  all_matches U text = [].
Proof.
  intro Hall. unfold all_matches. apply flat_map_nil. intros kv Hkv.
  apply silent_rule_finds_nothing; [assumption|].
  pose proof sensitive_in_catalog as H. rewrite Forall_forall in H. now apply H.
Qed.

Lemma reduced_clean (original text : pystr) :
  flat_map (fun p => findall U p text IGNORECASE) suspicious_patterns = [] ->
  AnonymizationService.validate_anonymization U original text =
    {| is_valid := true; potential_issues := []; anonymization_score := 100 |}.
Proof.
  intro Hred. unfold AnonymizationService.validate_anonymization.
  rewrite collect_issues_fold, Hred. reflexivity.
Qed.

Lemma full_clean (utcnow : datetime) (text : pystr) :
  all_matches U text = [] ->
  GDPRCompliance.is_anonymized (GDPRCompliance.validate_anonymization U utcnow text) = true /\
  GDPRCompliance.issues (GDPRCompliance.validate_anonymization U utcnow text) = [] /\
  GDPRCompliance.confidence_score (GDPRCompliance.validate_anonymization U utcnow text) = 100%Z.
Proof.
  intro Hfull. rewrite full_report.
  cbn [GDPRCompliance.is_anonymized GDPRCompliance.issues GDPRCompliance.confidence_score].
  assert (Hlen : length (all_matches U text) = 0) by (now rewrite Hfull).
  split; [|split].
  - apply Nat.eqb_eq, length_zero_iff_nil, findings_nil. exact Hfull.
  - apply findings_nil. exact Hfull.
  - rewrite Hlen. reflexivity.
Qed.

(* The premise of the next theorem is not to be searched for implicit
   arguments: that search would evaluate the whole redaction loop. *)
Unset Implicit Arguments.

(** X4.  A text in which the redactor finds nothing passes both
    validators: the reduced one reports no issue and the score 100,
    the full one reports no finding and the score 100.  So a text that
    either validator flags always gets a non-empty ledger. *)
Theorem X4_unredacted_text_is_clean (utcnow : datetime) (original text : pystr) :
  replacements (_anonymize_locally U text) = [] ->
  AnonymizationService.validate_anonymization U original text =
    {| is_valid := true; potential_issues := []; anonymization_score := 100 |} /\
  GDPRCompliance.is_anonymized (GDPRCompliance.validate_anonymization U utcnow text) = true /\
  GDPRCompliance.issues (GDPRCompliance.validate_anonymization U utcnow text) = [] /\
  GDPRCompliance.confidence_score (GDPRCompliance.validate_anonymization U utcnow text) = 100%Z.
Proof.
  intro Hnil. rewrite replacements_of_loop in Hnil.
  pose proof (@silent_from rules text [] Hnil) as Hall.
  split.
  - apply reduced_clean, silent_reduced. exact Hall.
  - apply full_clean, silent_full. exact Hall.
Qed.

Set Implicit Arguments.

End LedgerUniqueness.

Lemma X2_placeholders_distinct_witness :
  1 <> 3 /\
  replacement {| original := u "Patient klagt"; replacement := u "[NAME_2]";
                 type := u "names"; position := (29, 42) |} <>
  replacement {| original := u "15.12.2023"; replacement := u "[DATUM_4]";
                 type := u "dates"; position := (9, 19) |}.
Proof.
  assert (Hne : 1 <> 3) by discriminate.
  split; [exact Hne|].
  apply (@X2_placeholders_distinct latin1 consultation_note 1 3 _ _ Hne);
    vm_compute; reflexivity.
Defined.

Lemma X4_unredacted_text_is_clean_witness :
  replacements (_anonymize_locally latin1 (u "1 + 1 = 2")) = [] /\
  AnonymizationService.validate_anonymization latin1 [] (u "1 + 1 = 2") =
    {| is_valid := true; potential_issues := []; anonymization_score := 100 |}.
Proof.
  assert (H : replacements (_anonymize_locally latin1 (u "1 + 1 = 2")) = [])
    by (vm_compute; reflexivity).
  split; [exact H|].
  exact (proj1 (@X4_unredacted_text_is_clean latin1 new_year_2024 [] (u "1 + 1 = 2") H)).
Defined.

(* ================================================================== *)
(** * Further properties of the GDPR helpers *)

Lemma encodable_char_rejects (c : N) :
  encodable_char c = false -> utf8_encode_char c = None.
Proof.
  intro H.
  assert (Hr : ~ (c < 55296 \/ (57343 < c /\ c < 1114112))%N).
  { rewrite <- encodable_char_range. congruence. }
  unfold utf8_encode_char.
  destruct (N.ltb_spec c 128); [lia|].
  destruct (N.ltb_spec c 2048); [lia|].
  destruct (N.ltb_spec c 65536).
  - destruct (N.leb_spec 55296 c); destruct (N.leb_spec c 57343); simpl;
      try reflexivity; lia.
  - destruct (N.ltb_spec c 1114112); [lia | reflexivity].
Qed.

Lemma encode_rejects (s : pystr) :
  forallb encodable_char s = false -> encode s = Raise UnicodeEncodeError.
Proof.
  induction s as [|c s IH]; simpl; intro H; [discriminate|].
  destruct (encodable_char c) eqn:Hc.
  - destruct (encodable_char_encodes c Hc) as (bs & ->).
    simpl in H. rewrite (IH H). reflexivity.
  - now rewrite (encodable_char_rejects c Hc).
Qed.

(** [encode] succeeds on encodable strings and raises
    UnicodeEncodeError on all others. *)
Lemma encode_outcome (s : pystr) :
  (encodable s /\ exists bs, encode s = Ok bs) \/
  (~ encodable s /\ encode s = Raise UnicodeEncodeError).
Proof.
  unfold encodable. destruct (forallb encodable_char s) eqn:E.
  - left. split; [reflexivity|]. now apply encodable_encodes.
  - right. split; [discriminate|]. now apply encode_rejects.
Qed.

Lemma encodable_app_iff (a b : pystr) :
  encodable (a ++ b) <-> encodable a /\ encodable b.
Proof. unfold encodable. rewrite forallb_app. apply andb_true_iff. Qed.

Lemma separator_encodable (a b : pystr) (d : datetime) :
  encodable (a ++ u "-" ++ b ++ u "-" ++ isoformat d) <-> encodable a /\ encodable b.
Proof.
  rewrite !encodable_app_iff.
  pose proof (isoformat_encodable d).
  assert (encodable (u "-")) by reflexivity.
  tauto.
Qed.

Lemma add_days_outcome (d : datetime) (n : Z) :
  (days_fit d n /\ add_days d n = Ok (days_later d n)) \/
  (~ days_fit d n /\ add_days d n = Raise OverflowError).
Proof.
  unfold add_days, days_fit, days_later.
  destruct (Z.ltb_spec 0 (toordinal d + n)); destruct (Z.leb_spec (toordinal d + n) MAXORDINAL);
    simpl; [left | right | right | right]; split; try reflexivity; lia.
Qed.

Lemma fixed_days_range (data_type : pystr) : (1095 <= fixed_days data_type <= 3650)%Z.
Proof.
  unfold fixed_days. repeat destruct (pystr_eqb data_type _); lia.
Qed.

(** X10.  For a valid creation date the retention helper fails in one
    way only: it raises OverflowError, and it does so exactly when the
    date plus the retention period lies after 9999-12-31. *)
Theorem X10_retention_date_failure
        (utcnow : datetime) (data_type : pystr) (d : datetime) :
  valid_datetime d ->
  (GDPRCompliance.calculate_retention_date utcnow data_type (Some d) = Raise OverflowError <->
   (MAXORDINAL < toordinal d + fixed_days data_type)%Z) /\
  GDPRCompliance.calculate_retention_date utcnow data_type (Some d) <>
    Raise UnicodeEncodeError.
Proof.
  intros [[Hlo _] _].
  unfold GDPRCompliance.calculate_retention_date. rewrite retention_days_fixed.
  pose proof (fixed_days_range data_type) as Hrange.
  destruct (add_days_outcome d (fixed_days data_type)) as [[Hfit ->] | [Hfit ->]];
    unfold days_fit in Hfit.
  - split; [|discriminate]. split; [discriminate | lia].
  - split; [|discriminate]. split; [lia | reflexivity].
Qed.

Lemma X10_retention_date_failure_witness :
  valid_datetime last_day /\
  GDPRCompliance.calculate_retention_date new_year_2024 (u "audit_logs") (Some last_day) =
    Raise OverflowError.
Proof.
  assert (Hv : valid_datetime last_day).
  { unfold valid_datetime, last_day, MAXORDINAL. simpl. lia. }
  split; [exact Hv|].
  apply (proj1 (@X10_retention_date_failure new_year_2024 (u "audit_logs") last_day Hv)).
  vm_compute. reflexivity.
Defined.

(** X11.  If a creation date admits the ten-year retention of
    anonymized data, every data type, known or not, gets a retention
    date for it, no earlier than three years (1095 days) after the
    creation date and no later than the anonymized-data date. *)
Theorem X11_retention_dates_ordered
        (utcnow : datetime) (data_type : pystr) (d longest : datetime) :
  valid_datetime d ->
  GDPRCompliance.calculate_retention_date utcnow (u "anonymized_data") (Some d) = Ok longest ->
  exists r,
    GDPRCompliance.calculate_retention_date utcnow data_type (Some d) = Ok r /\
    (toordinal d + 1095 <= toordinal r <= toordinal longest)%Z.
Proof.
  intros [[Hlo _] _] Hlong.
  unfold GDPRCompliance.calculate_retention_date in *.
  rewrite retention_days_fixed in *.
  pose proof (fixed_days_range data_type) as Hrange.
  change (fixed_days (u "anonymized_data")) with 3650%Z in Hlong.
  destruct (add_days_outcome d 3650) as [[Hfit Heq] | [_ Heq]];
    rewrite Heq in Hlong; [|discriminate].
  injection Hlong as <-. unfold days_fit in Hfit.
  destruct (add_days_outcome d (fixed_days data_type)) as [[_ ->] | [Hno _]].
  - eexists. split; [reflexivity|]. simpl. lia.
  - exfalso. apply Hno. unfold days_fit. lia.
Qed.

Lemma X11_retention_dates_ordered_witness :
  valid_datetime new_year_2024 /\
  exists r,
    GDPRCompliance.calculate_retention_date new_year_2024 (u "audit_logs")
      (Some new_year_2024) = Ok r /\
    (toordinal new_year_2024 + 1095 <= toordinal r <=
     toordinal (days_later new_year_2024 3650))%Z.
Proof.
  assert (Hv : valid_datetime new_year_2024).
  { unfold valid_datetime, new_year_2024, MAXORDINAL. simpl. lia. }
  split; [exact Hv|].
  apply (@X11_retention_dates_ordered new_year_2024 (u "audit_logs") new_year_2024
           (days_later new_year_2024 3650) Hv).
  vm_compute. reflexivity.
Defined.

(** X12.  For one of the seven request types the rights helper has
    three outcomes.  It raises UnicodeEncodeError exactly when the
    patient id cannot be encoded; it raises OverflowError exactly when
    the id can be encoded but the second clock reading plus 30 days
    lies after 9999-12-31; otherwise it accepts, the response deadline
    being that clock reading moved forward by 30 days and the request
    id at most 16 characters of the digest. *)
Theorem X12_rights_request_outcomes
        (sha256_hexdigest : list N -> pystr) (clock : nat -> datetime)
        (rtype pid : pystr) :
  In rtype request_types ->
  (GDPRCompliance.validate_data_subject_rights sha256_hexdigest clock rtype pid =
     Raise UnicodeEncodeError <-> ~ encodable pid) /\
  (GDPRCompliance.validate_data_subject_rights sha256_hexdigest clock rtype pid =
     Raise OverflowError <-> encodable pid /\ ~ days_fit (clock 1) 30) /\
  (forall report,
     GDPRCompliance.validate_data_subject_rights sha256_hexdigest clock rtype pid = Ok report ->
     exists r, report = GDPRCompliance.Accepted r /\
               GDPRCompliance.response_deadline r = isoformat (days_later (clock 1) 30) /\
               GDPRCompliance.timestamp r = isoformat (clock 2) /\
               length (GDPRCompliance.request_id r) <= 16).
Proof.
  intro Hin.
  unfold GDPRCompliance.validate_data_subject_rights.
  destruct (dict_get_some GDPRCompliance.valid_requests rtype Hin) as (basis & ->).
  pose proof (request_type_encodable Hin) as Hrt.
  pose proof (separator_encodable rtype pid (clock 0)) as Hsep.
  destruct (encode_outcome (rtype ++ u "-" ++ pid ++ u "-" ++ isoformat (clock 0)))
    as [[Henc (data & ->)] | [Henc ->]]; cbn [bind].
  - assert (Hpid : encodable pid) by tauto.
    destruct (add_days_outcome (clock 1) 30) as [[Hfit ->] | [Hfit ->]]; cbn [bind].
    + split; [split; [discriminate | tauto]|].
      split; [split; [discriminate | tauto]|].
      intros report H.
      match type of H with
      | Ok (GDPRCompliance.Accepted ?r) = _ => exists r
      end.
      split; [congruence|].
      cbn [GDPRCompliance.response_deadline GDPRCompliance.timestamp
           GDPRCompliance.request_id].
      split; [reflexivity|]. split; [reflexivity|]. apply firstn_le_length.
    + split; [split; [discriminate | tauto]|].
      split; [split; [tauto | reflexivity]|].
      intros report H. discriminate H.
  - assert (Hpid : ~ encodable pid) by tauto.
    split; [split; [tauto | reflexivity]|].
    split; [split; [discriminate | tauto]|].
    intros report H. discriminate H.
Qed.

Lemma X12_rights_request_outcomes_witness :
  In (u "access") request_types /\
  GDPRCompliance.validate_data_subject_rights
    (fun _ => []) (fun _ => last_day) (u "access") (u "P-1") = Raise OverflowError.
Proof.
  assert (Hin : In (u "access") request_types) by (left; reflexivity).
  split; [exact Hin|].
  apply (proj1 (proj2 (@X12_rights_request_outcomes
                         (fun _ => []) (fun _ => last_day) (u "access") (u "P-1") Hin))).
  split; [reflexivity|].
  unfold days_fit. vm_compute. intros [_ H]. apply H. reflexivity.
Defined.

(** Case analysis over the four risk conditions. *)
Ltac risk_cases pa ad :=
  unfold GDPRRecords.assess_privacy_impact, GDPRRecords.assess_risk, risk_conditions;
  destruct (existsb (pystr_eqb pa) _);
  repeat match goal with
         | |- context [pystr_eqb ?a ?b] => destruct (pystr_eqb a b)
         end;
  destruct ad;
  cbn [GDPRRecords.Impact.risk_score GDPRRecords.Impact.dpia_required
       GDPRRecords.Impact.risk_level GDPRRecords.Impact.risk_factors
       GDPRRecords.Impact.recommendation app length].

(** X13.  The risk score of the impact assessment lies between 0 and
    100.  A 'high' risk level always comes with [dpia_required], a
    'low' one never does, and the recommendation asks for a DPIA
    exactly when [dpia_required] is set. *)
Theorem X13_impact_level_and_dpia
        (utcnow : datetime) (processing_activity data_sensitivity data_volume : pystr)
        (automated_decisions : bool) :
  (0 <= GDPRRecords.Impact.risk_score
          (GDPRRecords.assess_privacy_impact utcnow processing_activity data_sensitivity
             data_volume automated_decisions) <= 100)%Z /\
  (GDPRRecords.Impact.risk_level
     (GDPRRecords.assess_privacy_impact utcnow processing_activity data_sensitivity
        data_volume automated_decisions) = u "high" ->
   GDPRRecords.Impact.dpia_required
     (GDPRRecords.assess_privacy_impact utcnow processing_activity data_sensitivity
        data_volume automated_decisions) = true) /\
  (GDPRRecords.Impact.risk_level
     (GDPRRecords.assess_privacy_impact utcnow processing_activity data_sensitivity
        data_volume automated_decisions) = u "low" ->
   GDPRRecords.Impact.dpia_required
     (GDPRRecords.assess_privacy_impact utcnow processing_activity data_sensitivity
        data_volume automated_decisions) = false) /\
  (GDPRRecords.Impact.recommendation
     (GDPRRecords.assess_privacy_impact utcnow processing_activity data_sensitivity
        data_volume automated_decisions) = u "Conduct DPIA before processing" <->
   GDPRRecords.Impact.dpia_required
     (GDPRRecords.assess_privacy_impact utcnow processing_activity data_sensitivity
        data_volume automated_decisions) = true).
Proof.
  risk_cases processing_activity automated_decisions;
    (split; [vm_compute; split; discriminate|]);
    (split; [intro H; vm_compute in H; vm_compute; first [reflexivity | discriminate H]|]);
    (split; [intro H; vm_compute in H; vm_compute; first [reflexivity | discriminate H]|]);
    (split; intro H; vm_compute in H; vm_compute; first [reflexivity | discriminate H]).
Qed.

(** X14.  The impact assessment lists one risk factor for each of the
    four conditions that holds.  The score is 0 exactly when none
    holds and 100 exactly when all four hold; three or more conditions
    always give the 'high' level, and a single condition never makes a
    DPIA required. *)
Theorem X14_impact_risk_factors
        (utcnow : datetime) (processing_activity data_sensitivity data_volume : pystr)
        (automated_decisions : bool) :
  length (GDPRRecords.Impact.risk_factors
            (GDPRRecords.assess_privacy_impact utcnow processing_activity data_sensitivity
               data_volume automated_decisions)) =
    risk_conditions processing_activity data_sensitivity data_volume automated_decisions /\
  (GDPRRecords.Impact.risk_score
     (GDPRRecords.assess_privacy_impact utcnow processing_activity data_sensitivity
        data_volume automated_decisions) = 0%Z <->
   risk_conditions processing_activity data_sensitivity data_volume automated_decisions = 0) /\
  (GDPRRecords.Impact.risk_score
     (GDPRRecords.assess_privacy_impact utcnow processing_activity data_sensitivity
        data_volume automated_decisions) = 100%Z <->
   risk_conditions processing_activity data_sensitivity data_volume automated_decisions = 4) /\
  (3 <= risk_conditions processing_activity data_sensitivity data_volume automated_decisions ->
   GDPRRecords.Impact.risk_level
     (GDPRRecords.assess_privacy_impact utcnow processing_activity data_sensitivity
        data_volume automated_decisions) = u "high") /\
  (risk_conditions processing_activity data_sensitivity data_volume automated_decisions <= 1 ->
   GDPRRecords.Impact.dpia_required
     (GDPRRecords.assess_privacy_impact utcnow processing_activity data_sensitivity
        data_volume automated_decisions) = false).
Proof.
  risk_cases processing_activity automated_decisions;
    (split; [reflexivity|]);
    (split; [simpl; split; intro H; first [reflexivity | discriminate H | lia]|]);
    (split; [simpl; split; intro H; first [reflexivity | discriminate H | lia]|]);
    (split; intro H; simpl in H; first [reflexivity | lia]).
Qed.

Lemma X14_impact_risk_factors_witness :
  3 <= risk_conditions (u "profiling") (u "special_category") (u "small") true /\
  GDPRRecords.Impact.risk_level
    (GDPRRecords.assess_privacy_impact new_year_2024 (u "profiling") (u "special_category")
       (u "small") true) = u "high".
Proof.
  assert (H : 3 <= risk_conditions (u "profiling") (u "special_category") (u "small") true).
  { vm_compute. apply le_n. }
  split; [exact H|].
  exact (proj1 (proj2 (proj2 (proj2
           (X14_impact_risk_factors new_year_2024 (u "profiling") (u "special_category")
              (u "small") true)))) H).
Defined.

Lemma X13_impact_level_and_dpia_witness :
  GDPRRecords.Impact.risk_level
    (GDPRRecords.assess_privacy_impact new_year_2024 (u "profiling") (u "special_category")
       (u "large_scale") true) = u "high" /\
  GDPRRecords.Impact.dpia_required
    (GDPRRecords.assess_privacy_impact new_year_2024 (u "profiling") (u "special_category")
       (u "large_scale") true) = true.
Proof.
  assert (H : GDPRRecords.Impact.risk_level
                (GDPRRecords.assess_privacy_impact new_year_2024 (u "profiling")
                   (u "special_category") (u "large_scale") true) = u "high")
    by (vm_compute; reflexivity).
  split; [exact H|].
  exact (proj1 (proj2
           (X13_impact_level_and_dpia new_year_2024 (u "profiling") (u "special_category")
              (u "large_scale") true)) H).
Defined.

(** X15.  [generate_consent_record] succeeds exactly when patient id
    and consent type can both be encoded, and raises
    UnicodeEncodeError otherwise.  The record repeats the arguments,
    takes "Article 6(1)(a) - Consent" when no legal basis is given,
    holds a retention period of 2555 days and a consent id of at most
    16 characters. *)
Theorem X15_consent_record
        (sha256_hexdigest : list N -> pystr) (clock : nat -> datetime)
        (pid ctype : pystr) (given : bool) (purpose : pystr) (basis : option pystr) :
  (encodable pid /\ encodable ctype ->
   exists r,
     GDPRRecords.generate_consent_record sha256_hexdigest clock pid ctype given purpose basis =
       Ok r /\
     GDPRRecords.Consent.patient_id r = pid /\
     GDPRRecords.Consent.consent_type r = ctype /\
     GDPRRecords.Consent.consent_given r = given /\
     GDPRRecords.Consent.purpose r = purpose /\
     GDPRRecords.Consent.legal_basis r =
       match basis with Some b => b | None => u "Article 6(1)(a) - Consent" end /\
     GDPRRecords.Consent.retention_period r = 2555%Z /\
     length (GDPRRecords.Consent.consent_id r) <= 16) /\
  (~ (encodable pid /\ encodable ctype) ->
   GDPRRecords.generate_consent_record sha256_hexdigest clock pid ctype given purpose basis =
     Raise UnicodeEncodeError).
Proof.
  unfold GDPRRecords.generate_consent_record.
  pose proof (separator_encodable pid ctype (clock 1)) as Hsep.
  destruct (encode_outcome (pid ++ u "-" ++ ctype ++ u "-" ++ isoformat (clock 1)))
    as [[Henc (data & ->)] | [Henc ->]]; cbn [bind].
  - split; [|tauto]. intros _. eexists. split; [reflexivity|].
    cbn [GDPRRecords.Consent.patient_id GDPRRecords.Consent.consent_type
         GDPRRecords.Consent.consent_given GDPRRecords.Consent.purpose
         GDPRRecords.Consent.legal_basis GDPRRecords.Consent.retention_period
         GDPRRecords.Consent.consent_id].
    do 4 (split; [reflexivity|]).
    split; [destruct basis; reflexivity|].
    split; [reflexivity | apply firstn_le_length].
  - split; [tauto | reflexivity].
Qed.

Lemma X15_consent_record_witness :
  (encodable (u "P-12345678") /\ encodable (u "medical_ai_processing")) /\
  exists r,
    GDPRRecords.generate_consent_record (fun _ => []) (fun _ => new_year_2024)
      (u "P-12345678") (u "medical_ai_processing") true
      (u "AI-assisted medical diagnosis support") None = Ok r /\
    GDPRRecords.Consent.legal_basis r = u "Article 6(1)(a) - Consent".
Proof.
  assert (H : encodable (u "P-12345678") /\ encodable (u "medical_ai_processing"))
    by (split; reflexivity).
  split; [exact H|].
  destruct (proj1 (X15_consent_record (fun _ => []) (fun _ => new_year_2024)
                     (u "P-12345678") (u "medical_ai_processing") true
                     (u "AI-assisted medical diagnosis support") None) H)
    as (r & Hr & _ & _ & _ & _ & Hbasis & _).
  exists r. split; [exact Hr | exact Hbasis].
Defined.

(** X16.  [create_data_processing_record] raises UnicodeEncodeError
    when activity or patient id cannot be encoded, and otherwise
    OverflowError when the second clock reading plus 2555 days lies
    after 9999-12-31.  In every other case it returns a record that
    repeats the arguments and whose retention date is that clock
    reading moved forward by 2555 days. *)
Theorem X16_processing_record
        (sha256_hexdigest : list N -> pystr) (clock : nat -> datetime)
        (activity pid : pystr) (data_types : list pystr) (purpose basis : pystr) :
  (~ (encodable activity /\ encodable pid) ->
   GDPRRecords.create_data_processing_record sha256_hexdigest clock activity pid data_types
     purpose basis = Raise UnicodeEncodeError) /\
  (encodable activity /\ encodable pid -> ~ days_fit (clock 1) 2555 ->
   GDPRRecords.create_data_processing_record sha256_hexdigest clock activity pid data_types
     purpose basis = Raise OverflowError) /\
  (encodable activity /\ encodable pid -> days_fit (clock 1) 2555 ->
   exists r,
     GDPRRecords.create_data_processing_record sha256_hexdigest clock activity pid data_types
       purpose basis = Ok r /\
     GDPRRecords.Processing.activity r = activity /\
     GDPRRecords.Processing.patient_id r = pid /\
     GDPRRecords.Processing.data_types r = data_types /\
     GDPRRecords.Processing.purpose r = purpose /\
     GDPRRecords.Processing.legal_basis r = basis /\
     GDPRRecords.Processing.retention_period r = isoformat (days_later (clock 1) 2555) /\
     GDPRRecords.Processing.timestamp r = isoformat (clock 2) /\
     length (GDPRRecords.Processing.record_id r) <= 16).
Proof.
  unfold GDPRRecords.create_data_processing_record,
    GDPRCompliance.calculate_retention_date.
  rewrite retention_days_fixed.
  change (fixed_days (u "medical_records")) with 2555%Z.
  pose proof (separator_encodable activity pid (clock 0)) as Hsep.
  destruct (encode_outcome (activity ++ u "-" ++ pid ++ u "-" ++ isoformat (clock 0)))
    as [[Henc (data & ->)] | [Henc ->]]; cbn [bind].
  - destruct (add_days_outcome (clock 1) 2555) as [[Hfit ->] | [Hfit ->]]; cbn [bind].
    + split; [tauto|]. split; [tauto|].
      intros _ _. eexists. split; [reflexivity|].
      cbn [GDPRRecords.Processing.activity GDPRRecords.Processing.patient_id
           GDPRRecords.Processing.data_types GDPRRecords.Processing.purpose
           GDPRRecords.Processing.legal_basis GDPRRecords.Processing.retention_period
           GDPRRecords.Processing.timestamp GDPRRecords.Processing.record_id].
      do 7 (split; [reflexivity|]). apply firstn_le_length.
    + split; [tauto|]. split; [reflexivity | tauto].
  - split; [reflexivity|]. split; tauto.
Qed.

Lemma X16_processing_record_witness :
  (encodable (u "medical_diagnosis_support") /\ encodable (u "P-12345678")) /\
  days_fit new_year_2024 2555 /\
  exists r,
    GDPRRecords.create_data_processing_record (fun _ => []) (fun _ => new_year_2024)
      (u "medical_diagnosis_support") (u "P-12345678") [u "symptoms"; u "medical_history"]
      (u "AI-assisted diagnosis") (u "Article 9(2)(h) - Healthcare provision") = Ok r /\
    GDPRRecords.Processing.retention_period r = isoformat (days_later new_year_2024 2555).
Proof.
  assert (He : encodable (u "medical_diagnosis_support") /\ encodable (u "P-12345678"))
    by (split; reflexivity).
  assert (Hf : days_fit new_year_2024 2555).
  { unfold days_fit. split; vm_compute; [reflexivity | discriminate]. }
  split; [exact He|]. split; [exact Hf|].
  destruct (proj2 (proj2 (X16_processing_record (fun _ => []) (fun _ => new_year_2024)
                            (u "medical_diagnosis_support") (u "P-12345678")
                            [u "symptoms"; u "medical_history"]
                            (u "AI-assisted diagnosis")
                            (u "Article 9(2)(h) - Healthcare provision"))) He Hf)
    as (r & Hr & _ & _ & _ & _ & _ & Hret & _).
  exists r. split; [exact Hr | exact Hret].
Defined.

(* ================================================================== *)
(** * Further properties of hashing and the n8n route *)

(** X17.  [anonymize_text] hands back the n8n answer exactly when n8n
    is enabled, the request went through, the status code is 200 and
    the body is JSON.  It raises exactly when n8n is enabled and the
    request raised an exception that is no instance of [Exception]
    (a cancellation, a keyboard interrupt), and then it raises that
    very exception.  In every other case, n8n disabled, a request that
    raised an [Exception], any other status code or an unreadable body,
    it hands back the result of the local redactor. *)
Theorem X17_anonymize_text_routes
        (U : ucd) (J E : Type) (is_Exception : E -> bool)
        (post : pystr -> AnonymizationRoutes.awaited E (Z * option J))
        (text : pystr) (use_n8n : bool) :
  (forall body,
     AnonymizationRoutes.anonymize_text U is_Exception post text use_n8n =
       AnonymizationRoutes.Returned (AnonymizationRoutes.FromN8n body) <->
     use_n8n = true /\
     post text = AnonymizationRoutes.Returned (200%Z, Some body)) /\
  (forall e,
     AnonymizationRoutes.anonymize_text U is_Exception post text use_n8n =
       AnonymizationRoutes.Raised e <->
     use_n8n = true /\
     exists e', e = AnonymizationRoutes.RequestError e' /\
                post text = AnonymizationRoutes.Raised e' /\
                is_Exception e' = false) /\
  (AnonymizationRoutes.anonymize_text U is_Exception post text use_n8n =
     AnonymizationRoutes.Returned
       (AnonymizationRoutes.Locally (_anonymize_locally U text)) <->
   use_n8n = false \/
   (exists e', post text = AnonymizationRoutes.Raised e' /\ is_Exception e' = true) \/
   (exists status_code body,
      post text = AnonymizationRoutes.Returned (status_code, body) /\
      (status_code <> 200%Z \/ body = None))).
Proof.
  unfold AnonymizationRoutes.anonymize_text, AnonymizationRoutes._anonymize_via_n8n.
  destruct use_n8n.
  - destruct (post text) as [[status_code [json|]]|e0].
    + destruct (Z.eqb_spec status_code 200) as [-> | Hne].
      * split; [|split].
        -- intro body. split.
           ++ intro H. split; [reflexivity | congruence].
           ++ intros [_ H]. congruence.
        -- intro e. split; [discriminate|].
           intros [_ (e' & _ & H & _)]. discriminate H.
        -- split; [discriminate|].
           intros [H | [(e' & H & _) | (st & body & H & [Hst | Hbody])]]; exfalso;
             try discriminate H.
           ++ apply Hst. congruence.
           ++ congruence.
      * cbn [AnonymizationRoutes.caught]. split; [|split].
        -- intro body. split; [discriminate|]. intros [_ H]. congruence.
        -- intro e. split; [discriminate|].
           intros [_ (e' & _ & H & _)]. discriminate H.
        -- split; [|reflexivity]. intros _. right. right.
           exists status_code, (Some json). split; [reflexivity | now left].
    + destruct (Z.eqb_spec status_code 200) as [-> | Hne];
        cbn [AnonymizationRoutes.caught]; (split; [|split]);
        try (intro body; split; [discriminate | intros [_ H]; congruence]);
        try (intro e; split; [discriminate | intros [_ (e' & _ & H & _)]; discriminate H]);
        (split; [|reflexivity]); intros _; right; right.
      * exists 200%Z, None. split; [reflexivity | now right].
      * exists status_code, None. split; [reflexivity | now right].
    + cbn [AnonymizationRoutes.caught].
      destruct (is_Exception e0) eqn:Hcaught; (split; [|split]).
      * intro body. split; [discriminate | intros [_ H]; discriminate H].
      * intro e. split; [discriminate|].
        intros [_ (e' & _ & H & Hfalse)].
        replace e' with e0 in Hfalse by congruence. congruence.
      * split; [|reflexivity]. intros _. right. left.
        exists e0. split; [reflexivity | assumption].
      * intro body. split; [discriminate | intros [_ H]; discriminate H].
      * intro e. split.
        -- intro H. split; [reflexivity|]. exists e0.
           split; [congruence | split; [reflexivity | assumption]].
        -- intros [_ (e' & -> & H & _)]. congruence.
      * split; [discriminate|].
        intros [H | [(e' & H & Htrue) | (st & body & H & _)]]; try discriminate H.
        replace e' with e0 in Htrue by congruence. congruence.
  - split; [|split].
    + intro body. split; [discriminate | intros [H _]; discriminate H].
    + intro e. split; [discriminate | intros [H _]; discriminate H].
    + split; [intros _; now left | reflexivity].
Qed.

Lemma X17_anonymize_text_routes_witness :
  AnonymizationRoutes.anonymize_text latin1 derives_from_Exception
    (fun _ => @AnonymizationRoutes.Raised client_exception (Z * option unit) CancelledError)
    consultation_note true =
  AnonymizationRoutes.Raised (AnonymizationRoutes.RequestError CancelledError) /\
  AnonymizationRoutes.anonymize_text latin1 derives_from_Exception
    (fun _ => @AnonymizationRoutes.Raised client_exception (Z * option unit) ConnectError)
    consultation_note true =
  AnonymizationRoutes.Returned
    (AnonymizationRoutes.Locally (_anonymize_locally latin1 consultation_note)).
Proof.
  split.
  - apply (proj1 (proj2 (X17_anonymize_text_routes latin1 derives_from_Exception
                           (fun _ => @AnonymizationRoutes.Raised client_exception
                                       (Z * option unit) CancelledError)
                           consultation_note true))).
    split; [reflexivity|]. exists CancelledError.
    split; [reflexivity | split; reflexivity].
  - apply (proj2 (proj2 (X17_anonymize_text_routes latin1 derives_from_Exception
                           (fun _ => @AnonymizationRoutes.Raised client_exception
                                       (Z * option unit) ConnectError)
                           consultation_note true))).
    right. left. exists ConnectError. split; reflexivity.
Defined.

Lemma decode_encode_char (c : N) (bs rest : list N) :
  utf8_encode_char c = Some bs -> utf8_decode (bs ++ rest) = c :: utf8_decode rest.
Proof.
  unfold utf8_encode_char.
  destruct (N.ltb_spec c 128) as [H1 | H1].
  { intro H.
    match type of H with Some ?l = Some _ => replace bs with l by congruence end.
    cbn [app utf8_decode].
    destruct (N.ltb_spec c 128); [reflexivity | lia]. }
  destruct (N.ltb_spec c 2048) as [H2 | H2].
  { intro H.
    match type of H with Some ?l = Some _ => replace bs with l by congruence end.
    cbn [app utf8_decode].
    destruct (N.ltb_spec (192 + c / 64) 128);
      [zify; Z.to_euclidean_division_equations; lia|].
    destruct (N.ltb_spec (192 + c / 64) 224);
      [|zify; Z.to_euclidean_division_equations; lia].
    f_equal. zify; Z.to_euclidean_division_equations; lia. }
  destruct (N.ltb_spec c 65536) as [H3 | H3].
  { destruct ((55296 <=? c) && (c <=? 57343))%N; [discriminate|].
    intro H.
    match type of H with Some ?l = Some _ => replace bs with l by congruence end.
    cbn [app utf8_decode].
    destruct (N.ltb_spec (224 + c / 4096) 128);
      [zify; Z.to_euclidean_division_equations; lia|].
    destruct (N.ltb_spec (224 + c / 4096) 224);
      [zify; Z.to_euclidean_division_equations; lia|].
    destruct (N.ltb_spec (224 + c / 4096) 240);
      [|zify; Z.to_euclidean_division_equations; lia].
    f_equal. zify; Z.to_euclidean_division_equations; lia. }
  destruct (N.ltb_spec c 1114112) as [H4 | H4]; [|discriminate].
  intro H.
    match type of H with Some ?l = Some _ => replace bs with l by congruence end.
    cbn [app utf8_decode].
  destruct (N.ltb_spec (240 + c / 262144) 128);
    [zify; Z.to_euclidean_division_equations; lia|].
  destruct (N.ltb_spec (240 + c / 262144) 224);
    [zify; Z.to_euclidean_division_equations; lia|].
  destruct (N.ltb_spec (240 + c / 262144) 240);
    [zify; Z.to_euclidean_division_equations; lia|].
  f_equal. zify; Z.to_euclidean_division_equations; lia.
Qed.

(** Decoding what [encode] produced gives the string back. *)
Lemma decode_encode (s : pystr) :
  forall bs, encode s = Ok bs -> utf8_decode bs = s.
Proof.
  induction s as [|c s IH]; simpl; intros bs H.
  - injection H as <-. reflexivity.
  - destruct (utf8_encode_char c) as [cs|] eqn:Hc; [|discriminate].
    destruct (encode s) as [rest|] eqn:Hs; [|discriminate].
    simpl in H. injection H as <-.
    rewrite (decode_encode_char c rest Hc). f_equal. now apply IH.
Qed.

(** X18.  [create_anonymization_hash] raises UnicodeEncodeError exactly
    on texts that cannot be encoded.  Otherwise it returns the digest
    of bytes that decode back to the text, so two texts are hashed
    over the same bytes only when they are the same text. *)
Theorem X18_anonymization_hash
        (sha256_hexdigest : list N -> pystr) (text : pystr) :
  (AnonymizationRoutes.create_anonymization_hash sha256_hexdigest text =
     Raise UnicodeEncodeError <-> ~ encodable text) /\
  (forall digest,
     AnonymizationRoutes.create_anonymization_hash sha256_hexdigest text = Ok digest ->
     exists data, encode text = Ok data /\
                  digest = sha256_hexdigest data /\
                  utf8_decode data = text) /\
  (forall other data,
     encode text = Ok data -> encode other = Ok data -> other = text).
Proof.
  unfold AnonymizationRoutes.create_anonymization_hash.
  split; [|split].
  - destruct (encode_outcome text) as [[Henc (data & ->)] | [Henc ->]]; cbn [bind].
    + split; [discriminate | tauto].
    + split; [tauto | reflexivity].
  - intros digest H. destruct (encode text) as [data|] eqn:E; [|discriminate].
    cbn [bind] in H. injection H as <-.
    exists data. split; [reflexivity|]. split; [reflexivity|].
    now apply decode_encode.
  - intros other data H1 H2.
    apply decode_encode in H1, H2. congruence.
Qed.

Lemma X18_anonymization_hash_witness :
  ~ encodable [55296%N] /\
  AnonymizationRoutes.create_anonymization_hash (fun _ => []) [55296%N] =
    Raise UnicodeEncodeError.
Proof.
  assert (H : ~ encodable [55296%N]) by (unfold encodable; simpl; discriminate).
  split; [exact H|].
  exact (proj2 (proj1 (X18_anonymization_hash (fun _ => []) [55296%N])) H).
Defined.
